(** * InsuranceDataCleaner: a shallow embedding of data_cleaning_rules.py

    The cleaner owns one pandas DataFrame ([self.df]) and runs nine steps on
    it in a fixed order.  Each step is embedded as a function from a table to
    a [result] table: [Ok] carries the table the step leaves in [self.df],
    [Raise] the exception that aborts the step (and the pipeline).

    Conventions of the embedding.
    - A cell is missing ([NaN]: the NaN of a numeric column, the NaT of a
      date column), an integer, a string or a timestamp at midnight.
      Numeric columns hold whole numbers (years of age and of experience),
      written in [Z].  A column of numbers is an int64 array, whose
      arithmetic wraps around, and a float64 array once a value is missing,
      whose arithmetic is exact on whole numbers up to [2 ^ 53]; the
      subtractions of the second step are embedded with both (see
      [minus]).  A timestamp is a date of the calendar; the dates that
      [split_insurance_dates] parses are held to the range of pandas'
      nanosecond timestamps.
    - Strings are the UTF-8 bytes of the Python strings.
    - A table keeps its column labels in order and its rows in order; a row
      maps column labels to cells.  The row labels of [pd.read_excel] are a
      fresh [RangeIndex], hence unique, and every step only filters rows, so
      the label-based [drop(index=...)] and [.loc[...]] of the source select
      exactly the rows they were computed from.
    - pandas and dateutil are libraries of the program; the parts of them the
      steps call are embedded from their behaviour in pandas 2 (strings in
      columns of dtype object) and dateutil 2, and the two
      that are implementation-defined ([pd.to_datetime] without a format, the
      order [sort_values] gives to equal counts) are an interface,
      [PandasLib]. *)

From Stdlib Require Import ZArith Lia Ascii String.
From stdpp Require Import gmap strings list fin_maps sorting pretty.

Local Open Scope Z_scope.

(** ** Python strings *)

Module PyStr.

Definition code (c : ascii) : N := N_of_ascii c.

Definition between (lo x hi : N) : bool := ((lo <=? x) && (x <=? hi))%N.

(** One-byte, two-byte and three-byte encodings of the characters for which
    [str.isspace] holds: U+0009..U+000D, U+001C..U+0020, U+0085, U+00A0,
    U+1680, U+2000..U+200A, U+2028, U+2029, U+202F, U+205F, U+3000. *)
Definition is_ws1 (x : N) : bool := between 9 x 13 || between 28 x 32.

Definition is_ws2 (x y : N) : bool :=
  ((x =? 194) && ((y =? 133) || (y =? 160)))%N.

Definition is_ws3 (x y z : N) : bool :=
  (((x =? 225) && (y =? 154) && (z =? 128))
   || ((x =? 226) && (y =? 128)
       && (between 128 z 138 || (z =? 168) || (z =? 169) || (z =? 175)))
   || ((x =? 226) && (y =? 129) && (z =? 159))
   || ((x =? 227) && (y =? 128) && (z =? 128)))%N.

Fixpoint drop (n : nat) (s : string) : string :=
  match n, s with
  | S n', String _ s' => drop n' s'
  | _, _ => s
  end.

(** Number of bytes of the whitespace character [s] starts with; 0 if it
    starts with none.  [fwd] tells whether [s] is read forwards or is a
    reversed string (its characters then have their bytes reversed). *)
Definition ws_len (fwd : bool) (s : string) : nat :=
  match s with
  | String a (String b (String c _)) =>
      if is_ws1 (code a) then 1
      else if (if fwd then is_ws2 (code a) (code b)
               else is_ws2 (code b) (code a)) then 2
      else if (if fwd then is_ws3 (code a) (code b) (code c)
               else is_ws3 (code c) (code b) (code a)) then 3
      else 0
  | String a (String b EmptyString) =>
      if is_ws1 (code a) then 1
      else if (if fwd then is_ws2 (code a) (code b)
               else is_ws2 (code b) (code a)) then 2
      else 0
  | String a EmptyString => if is_ws1 (code a) then 1 else 0
  | EmptyString => 0
  end%nat.

(** Removes leading whitespace; every round removes at least one byte, so
    [String.length s] rounds are enough. *)
Fixpoint lstrip_go (fwd : bool) (n : nat) (s : string) : string :=
  match n with
  | O => s
  | S n' =>
      match ws_len fwd s with
      | O => s
      | k => lstrip_go fwd n' (drop k s)
      end
  end.

Definition lstrip (s : string) : string :=
  lstrip_go true (String.length s) s.

Definition rstrip (s : string) : string :=
  let r := String.rev s in
  String.rev (lstrip_go false (String.length r) r).

(** [str.strip()] *)
Definition strip (s : string) : string := rstrip (lstrip s).

(** [str.lower()] on the ASCII letters and on the Cyrillic capitals
    U+0400..U+042F (UTF-8 D0 80..AF); these are the alphabets of the lookup
    tables of the cleaner.  Other characters are left as they are. *)
Fixpoint lower (s : string) : string :=
  match s with
  | EmptyString => EmptyString
  | String a rest =>
      let x := code a in
      if between 65 x 90 then String (ascii_of_N (x + 32)) (lower rest)
      else
        match rest with
        | String b rest' =>
            let y := code b in
            if (x =? 208)%N && between 128 y 143 then
              String (ascii_of_N 209) (String (ascii_of_N (y + 16)) (lower rest'))
            else if (x =? 208)%N && between 144 y 159 then
              String (ascii_of_N 208) (String (ascii_of_N (y + 32)) (lower rest'))
            else if (x =? 208)%N && between 160 y 175 then
              String (ascii_of_N 209) (String (ascii_of_N (y - 32)) (lower rest'))
            else String a (lower rest)
        | EmptyString => String a EmptyString
        end
  end.

(** [str.split(sep)] for a one-character separator: never the empty list. *)
Fixpoint split (sep : ascii) (s : string) : list string :=
  match s with
  | EmptyString => [EmptyString]
  | String c s' =>
      if Ascii.eqb c sep then EmptyString :: split sep s'
      else match split sep s' with
           | p :: ps => String c p :: ps
           | [] => [String c EmptyString]
           end
  end.

Definition is_digit (c : ascii) : bool := between 48 (code c) 57.

Definition digit (c : ascii) : Z := Z.of_N (code c) - 48.

(** [int(s)] for a string of decimal digits. *)
Definition digits_value (s : string) : Z :=
  fold_left (fun acc c => 10 * acc + digit c) (list_ascii_of_string s) 0.

(** Decimal numeral of width at least [w], padded with zeros. *)
Definition zfill (w : nat) (z : Z) : string :=
  let s := pretty (Z.to_N z) in
  String.app (string_of_list_ascii (replicate (w - String.length s) "0"%char)) s.

End PyStr.

(** ** Cells, exceptions, tables *)

Record date := mkdate { year : Z; month : Z; day : Z }.

Inductive cell :=
| NaN
| Num (z : Z)
| Str (s : string)
| Date (d : date).

Global Instance date_eq_dec : EqDecision date.
Proof. solve_decision. Defined.

Global Instance cell_eq_dec : EqDecision cell.
Proof. solve_decision. Defined.

Global Instance cell_inhabited : Inhabited cell := populate NaN.

(** The exceptions the steps can end with.  [DuplicateColumns], [Inexact]
    and [LoopBound] are not Python exceptions.  The first marks a table
    whose column labels collide once stripped, the second a float64 column
    with a number so large that float64 arithmetic would round it; the
    embedding follows neither any further.  The third marks a loop of the
    embedding that used up its iteration bound (see [delta_of_dates_spec]:
    it does not happen on dates of the calendar). *)
Inductive exn :=
| KeyError (label : string)
| TypeError
| ValueError
| AssertionError
| DuplicateColumns
| Inexact
| LoopBound.

Inductive result (A : Type) :=
| Ok (a : A)
| Raise (e : exn).
Arguments Ok {A} a.
Arguments Raise {A} e.

Global Instance result_ret : MRet result := fun A a => Ok a.

Global Instance result_bind : MBind result := fun A B k m =>
  match m with
  | Ok a => k a
  | Raise e => Raise e
  end.

Global Instance exn_eq_dec : EqDecision exn.
Proof. solve_decision. Defined.

Record DataFrame := mkdf {
  columns : list string;
  rows : list (gmap string cell)
}.

Definition nrows (df : DataFrame) : nat := length (rows df).

(** [row[label]]; a row of a well-formed table has every column. *)
Definition getitem (label : string) (r : gmap string cell) : cell :=
  default NaN (r !! label).

Notation "r .[ c ]" := (getitem c r)
  (at level 1, left associativity, format "r .[ c ]") : stdpp_scope.

(** [self.df[label]]: the column, or [KeyError]. *)
Definition require (label : string) (df : DataFrame) : result unit :=
  if decide (label ∈ columns df) then Ok tt else Raise (KeyError label).

Definition series (label : string) (df : DataFrame) : list cell :=
  getitem label <$> rows df.

Definition add_label (label : string) (cols : list string) : list string :=
  if decide (label ∈ cols) then cols else cols ++ [label].

(** [self.df[label] = values], the values aligned with the rows. *)
Definition setitem (label : string) (values : list cell) (df : DataFrame)
  : DataFrame :=
  {| columns := add_label label (columns df);
     rows := zip_with (fun r v => <[label := v]> r) (rows df) values |}.

(** [self.df[label] = self.df.apply(f, axis=1)] and the like: a new value
    for each row, computed from that row. *)
Definition assign (label : string) (f : gmap string cell → cell)
    (df : DataFrame) : DataFrame :=
  {| columns := add_label label (columns df);
     rows := (fun r => <[label := f r]> r) <$> rows df |}.

(** [self.df[mask]] *)
Definition select (keep : gmap string cell → bool) (df : DataFrame)
  : DataFrame :=
  {| columns := columns df; rows := filter (fun r => keep r = true) (rows df) |}.

Definition first_missing (labels cols : list string) : option string :=
  head (filter (fun l => l ∉ cols) labels).

(** [self.df.drop(columns=labels)] *)
Definition drop_columns (labels : list string) (df : DataFrame)
  : result DataFrame :=
  match first_missing labels (columns df) with
  | Some l => Raise (KeyError l)
  | None =>
      Ok {| columns := filter (fun c => c ∉ labels) (columns df);
            rows := (fun r : gmap string cell => foldr delete r labels) <$> rows df |}
  end.

(** ** Element-wise arithmetic and comparisons of numeric columns *)

Definition numeric (c : cell) : bool :=
  match c with
  | NaN | Num _ => true
  | Str _ | Date _ => false
  end.

(** [a - b] where no overflow is possible: [2025 - year] for the year of a
    timestamp, which lies between 1677 and 2262.  (The subtractions of the
    second step, on columns of arbitrary numbers, are [minus].) *)
Definition sub (a b : cell) : cell :=
  match a, b with
  | Num x, Num y => Num (x - y)
  | _, _ => NaN
  end.

(** A comparison with a missing value is false. *)
Definition compare_cells (op : Z → Z → bool) (a b : cell) : bool :=
  match a, b with
  | Num x, Num y => op x y
  | _, _ => false
  end.

Definition gt := compare_cells Z.gtb.
Definition lt := compare_cells Z.ltb.
Definition ge := compare_cells Z.geb.

(** ** Step 1: drop_features *)

Definition drop_features (df : DataFrame) : result DataFrame :=
  drop_columns
    ["Unique number"; "Citizenship"; "Gender"; "Loss_amount"; "Accident_region"]
    df.

(** ** int64 and float64 columns

    A column of whole numbers is a numpy int64 array when every value is
    there and fits 64 bits; a subtraction of two such columns, or of a
    Python int and such a column, is computed in int64 and wraps around
    silently.  As soon as one of the columns holds a missing value it is a
    float64 array and the subtraction is computed in float64, which is exact
    as long as the numbers stay below [2 ^ 53]. *)

Definition wrap64 (z : Z) : Z := (z + 2 ^ 63) mod 2 ^ 64 - 2 ^ 63.

Definition is_int64 (c : cell) : bool :=
  match c with
  | Num z => (- 2 ^ 63 <=? z) && (z <? 2 ^ 63)
  | _ => false
  end.

(** [float_exact c]: the number [c], if it is one, is small enough for
    every subtraction of the second step to be exact in float64. *)
Definition float_exact (c : cell) : bool :=
  match c with
  | Num z => (- 2 ^ 51 <=? z) && (z <=? 2 ^ 51)
  | _ => true
  end.

(** [a - b] element by element; [ints] tells whether both columns are
    int64. *)
Definition minus (ints : bool) (a b : cell) : cell :=
  match a, b with
  | Num x, Num y => Num (if ints then wrap64 (x - y) else x - y)
  | _, _ => NaN
  end.

(** ** Step 2: adjust_invalid_driving_experience *)

(** Whether Age and Driving_experience are both int64 columns. *)
Definition both_int64 (df : DataFrame) : bool :=
  forallb is_int64 (series "Age" df)
  && forallb is_int64 (series "Driving_experience" df).

Definition adjust_invalid_driving_experience (df : DataFrame)
  : result DataFrame :=
  require "Age" df ;;
  require "Driving_experience" df ;;
  (* arithmetic on a column that holds text or timestamps is a TypeError *)
  if negb (forallb numeric (series "Age" df)
           && forallb numeric (series "Driving_experience" df))
  then Raise TypeError
  else
    let ints := both_int64 df in
    (* float64 arithmetic is followed only where it is exact *)
    if negb (ints
             || forallb float_exact (series "Age" df)
                && forallb float_exact (series "Driving_experience" df))
    then Raise Inexact
    else
      let df :=
        assign "Age_gap"
          (fun r => minus ints r.["Age"] r.["Driving_experience"]) df in
      (* invalid_experience and its drop *)
      let df :=
        select (fun r => negb (gt r.["Driving_experience"] r.["Age"])) df in
      (* started_under_18, adjustment and the in-place subtraction *)
      let df :=
        {| columns := columns df;
           rows :=
             (fun r : gmap string cell =>
                if lt r.["Age_gap"] (Num 18)
                then
                  let adjustment := minus ints (Num 18) r.["Age_gap"] in
                  <["Driving_experience" :=
                      minus ints r.["Driving_experience"] adjustment]> r
                else r) <$> rows df |} in
      df ← drop_columns ["Age_gap"] df;
      Ok (select (fun r => ge r.["Driving_experience"] (Num 0)) df).

(** ** Calendar dates *)

Definition isleap (y : Z) : bool :=
  (y mod 4 =? 0) && (negb (y mod 100 =? 0) || (y mod 400 =? 0)).

Definition days_in_month (y m : Z) : Z :=
  if m =? 2 then (if isleap y then 29 else 28)
  else if (m =? 4) || (m =? 6) || (m =? 9) || (m =? 11) then 30
  else 31.

(** [calendar.monthrange(year, month)[1]]; an illegal month is an error. *)
Definition monthrange (y m : Z) : result Z :=
  if (1 <=? m) && (m <=? 12) then Ok (days_in_month y m) else Raise ValueError.

Definition is_date (d : date) : bool :=
  (1 <=? month d) && (month d <=? 12)
  && (1 <=? day d) && (day d <=? days_in_month (year d) (month d)).

(** [dt1 < dt2] on timestamps at midnight. *)
Definition date_ltb (a b : date) : bool :=
  (year a <? year b)
  || ((year a =? year b)
      && ((month a <? month b)
          || ((month a =? month b) && (day a <? day b)))).

(** ** pd.to_datetime(..., format='%d.%m.%Y', errors='coerce')

    The format is matched as the regular expression that strptime builds
    from it: [%d] is [3[0-1]|[1-2]\d|0[1-9]|[1-9]| [1-9]], [%m] is
    [1[0-2]|0[1-9]|[1-9]], [%Y] is four digits, and nothing may follow.
    The fields are then checked to be a date of the calendar that a
    nanosecond timestamp can hold. *)

Definition match_d (s : string) : option Z :=
  match s with
  | String a (String b EmptyString) =>
      let x := PyStr.code a in
      let y := PyStr.code b in
      if ((x =? 51) && PyStr.between 48 y 49                      (* 3[0-1] *)
          || PyStr.between 49 x 50 && PyStr.between 48 y 57       (* [1-2]\d *)
          || (x =? 48) && PyStr.between 49 y 57)%N                (* 0[1-9] *)
      then Some (10 * PyStr.digit a + PyStr.digit b)
      else if ((x =? 32) && PyStr.between 49 y 57)%N              (* " [1-9]" *)
      then Some (PyStr.digit b)
      else None
  | String a EmptyString =>
      if PyStr.between 49 (PyStr.code a) 57 then Some (PyStr.digit a) else None
  | _ => None
  end.

Definition match_m (s : string) : option Z :=
  match s with
  | String a (String b EmptyString) =>
      let x := PyStr.code a in
      let y := PyStr.code b in
      if ((x =? 49) && PyStr.between 48 y 50                      (* 1[0-2] *)
          || (x =? 48) && PyStr.between 49 y 57)%N                (* 0[1-9] *)
      then Some (10 * PyStr.digit a + PyStr.digit b)
      else None
  | String a EmptyString =>
      if PyStr.between 49 (PyStr.code a) 57 then Some (PyStr.digit a) else None
  | _ => None
  end.

Definition match_Y (s : string) : option Z :=
  match s with
  | String a (String b (String c (String d EmptyString))) =>
      if PyStr.is_digit a && PyStr.is_digit b
         && PyStr.is_digit c && PyStr.is_digit d
      then Some (PyStr.digits_value s)
      else None
  | _ => None
  end.

(** The dates that a nanosecond timestamp can hold at midnight:
    1677-09-22 to 2262-04-11.  A date outside is out of bounds, which
    [errors='coerce'] turns into NaT. *)
Definition in_ns_bounds (d : date) : bool :=
  negb (date_ltb d (mkdate 1677 9 22)) && negb (date_ltb (mkdate 2262 4 11) d).

Definition strptime_dmy (s : string) : option date :=
  match PyStr.split "." s with
  | [sd; sm; sy] =>
      d ← match_d sd;
      m ← match_m sm;
      y ← match_Y sy;
      let dt := mkdate y m d in
      if (1 <=? y) && is_date dt && in_ns_bounds dt then Some dt else None
  | _ => None
  end.

(** One value of the column handed to [to_datetime]: a string is parsed, a
    missing value stays missing.  The column comes from [str.split], which
    yields nothing else. *)
Definition to_datetime_dmy (c : cell) : cell :=
  match c with
  | Str s => from_option Date NaN (strptime_dmy s)
  | _ => NaN
  end.

(** ** dateutil.relativedelta(dt1, dt2)

    Only the fields the cleaner reads are kept.  The constructor first takes
    the difference of the year and month fields, adds it to [dt2], and while
    that overshoots [dt1] moves the month count one step back towards zero. *)

Record relativedelta := mkdelta { years : Z; months : Z }.

Definition _set_months (m : Z) : relativedelta :=
  if 11 <? Z.abs m then
    let s := Z.sgn m in
    {| years := (m * s) / 12 * s; months := (m * s) mod 12 * s |}
  else {| years := 0; months := m |}.

(** [self.__radd__(other)]: the date [other] moved by the years and months of
    [self], the day clipped to the length of the month reached. *)
Definition radd (self : relativedelta) (other : date) : result date :=
  let y := year other + years self in
  let m := month other in
  '(y, m) ←
    (if months self =? 0 then Ok (y, m)
     else if negb ((1 <=? Z.abs (months self)) && (Z.abs (months self) <=? 12))
     then Raise AssertionError
     else
       let m := m + months self in
       if 12 <? m then Ok (y + 1, m - 12)
       else if m <? 1 then Ok (y - 1, m + 12)
       else Ok (y, m));
  last ← monthrange y m;
  Ok (mkdate y m (Z.min last (day other))).

(** The [while compare(dt1, dtm)] loop, at most [bound] tests of its
    condition. *)
Fixpoint overshoot (bound : nat) (compare : date → date → bool)
    (increment : Z) (dt1 dt2 : date) (m : Z) (dtm : date) : result Z :=
  match bound with
  | O => Raise LoopBound
  | S bound' =>
      if compare dt1 dtm then
        let m := m + increment in
        dtm ← radd (_set_months m) dt2;
        overshoot bound' compare increment dt1 dt2 m dtm
      else Ok m
  end.

Definition loop_bound : nat := 4.

Definition delta_of_dates (dt1 dt2 : date) : result relativedelta :=
  let m := (year dt1 - year dt2) * 12 + (month dt1 - month dt2) in
  dtm ← radd (_set_months m) dt2;
  m ← (if date_ltb dt1 dt2
       then overshoot loop_bound (fun a b => date_ltb b a) 1 dt1 dt2 m dtm
       else overshoot loop_bound date_ltb (-1) dt1 dt2 m dtm);
  Ok (_set_months m).

(** [relativedelta(dt1, dt2)] on two cells of a row of the two date
    columns, which [split_insurance_dates] leaves as datetime64 columns:
    their missing value is NaT.  NaT is true as a condition and is an
    instance of [datetime]; its year and month are nan, so the month count
    is nan, [_set_months] stores it unchanged, and [__radd__] stops at
    [assert 1 <= abs(self.months) <= 12].  Any other pair of values that are
    not both dates is refused with a TypeError.  (A Python [None], which a
    datetime64 column cannot hold, is not a value of the embedding.) *)
Definition relativedelta_of (dt1 dt2 : cell) : result relativedelta :=
  match dt1, dt2 with
  | Date a, Date b => delta_of_dates a b
  | NaN, (NaN | Date _) | Date _, NaN => Raise AssertionError
  | _, _ => Raise TypeError
  end.

(** ** Lookup tables *)

Definition vehicle_mapping : gmap string string :=
  list_to_map
    [ ("Легковые автомобили", "Легковые автомобили");
      ("Мотоциклы и мотороллеры", "Мотоциклы");
      ("Грузовые автомобили", "Грузовые");
      ("Автобусы до 16 п/м вкл.", "Автобусы");
      ("Автобусы, свыше 16 п/м", "Автобусы") ].

Definition trailers : list cell :=
  [ Str "Прицеп к грузовой а/м"; Str "Прицеп к легковой а/м" ].

Definition color_mapping : gmap string string :=
  list_to_map
    [ ("белый", "Белый"); ("снежная королева", "Белый");
      ("жемчужно-белый", "Белый"); ("бело-серый", "Белый");
      ("черный", "Черный"); ("черный металлик", "Черный");
      ("черный с фиолетовым отливом", "Черный");
      ("серый", "Серый"); ("темно-серый", "Серый"); ("графит", "Серый");
      ("мокрый асфальт", "Серый");
      ("синий", "Синий"); ("темно-синий", "Синий"); ("ярко-синий", "Синий");
      ("сине-зеленый", "Синий");
      ("зеленый", "Зеленый"); ("лайм", "Зеленый"); ("изумрудный", "Зеленый");
      ("оливковый", "Зеленый");
      ("красный", "Красный"); ("бордовый", "Красный"); ("вишневый", "Красный");
      ("коралл", "Красный");
      ("желтый", "Желтый"); ("лимонный", "Желтый"); ("светло-желтый", "Желтый");
      ("коричневый", "Коричневый"); ("мокко", "Коричневый");
      ("шоколадный", "Коричневый");
      ("фиолетовый", "Фиолетовый"); ("сиреневый", "Фиолетовый");
      ("лиловый", "Фиолетовый") ].

Definition region_mapping : gmap string string :=
  list_to_map
    [ ("Алматы", "Алматинская область");
      ("Нур-Султан", "Астана");
      ("Актобе", "Актюбинская область");
      ("Петропавловск", "Северо-Казахстанская область");
      ("Кокшетау", "Акмолинская область");
      ("Костанай", "Костанайская область");
      ("Павлодар", "Павлодарская область");
      ("Караганда", "Карагандинская область");
      ("Семей", "Восточно-Казахстанская область");
      ("Актау", "Мангистауская область");
      ("Атырау", "Атырауская область");
      ("Уральск", "Западно-Казахстанская область");
      ("Талдыкорган", "Алматинская область");
      ("Шымкент", "Туркестанская область");
      ("Кызылорда", "Кызылординская область");
      ("Тараз", "Жамбылская область");
      ("Усть-Каменогорск", "Восточно-Казахстанская область");
      ("Рудный", "Костанайская область");
      ("Темиртау", "Карагандинская область");
      ("Есик", "Алматинская область");
      ("Атбасар", "Акмолинская область");
      ("Жаксы", "Акмолинская область");
      ("Есиль", "Северо-Казахстанская область");
      ("Красный Яр", "Актюбинская область");
      ("Мариновка", "Костанайская область");
      ("Запорожье", "Костанайская область");
      ("Новоалександровка", "Костанайская область");
      ("Балкашино", "Акмолинская область");
      ("Лозовое", "Костанайская область");
      ("Талгар", "Алматинская область");
      ("Есенгельды", "Алматинская область");
      ("Новокиенка", "Костанайская область");
      ("Борисовка", "Северо-Казахстанская область");
      ("Аршалы", "Акмолинская область");
      ("Максимовка", "Акмолинская область");
      ("Боралдай", "Алматинская область");
      ("Покровка", "Актюбинская область");
      ("Октябрьское", "Актюбинская область");
      ("Садовое", "Северо-Казахстанская область");
      ("Тимашевка", "Костанайская область") ].

(** ** The library interface

    [to_datetime] is [pd.to_datetime(column, errors='coerce')] without a
    format: one result per value, a timestamp or NaT.  [sort_values] is the
    descending sort by count inside [Series.value_counts]; pandas does not
    fix the order it gives to equal counts. *)
Class PandasLib := {
  to_datetime : list cell → list (option date);
  to_datetime_length : ∀ col, length (to_datetime col) = length col;
  sort_values : list (cell * nat) → list (cell * nat);
  sort_values_perm : ∀ s, sort_values s ≡ₚ s;
  sort_values_sorted :
    ∀ s, StronglySorted (fun a b => (b.2 ≤ a.2)%nat) (sort_values s)
}.

(** *** Series helpers *)

Definition isin (c : cell) (values : list cell) : bool := bool_decide (c ∈ values).

(** [Series.map(mapping)]: a value that is not a key becomes missing. *)
Definition map_dict (mapping : gmap string string) (c : cell) : cell :=
  match c with
  | Str s => from_option Str NaN (mapping !! s)
  | _ => NaN
  end.

Definition fillna (value : cell) (c : cell) : cell :=
  match c with
  | NaN => value
  | _ => c
  end.

(** [Series.dt.year] *)
Definition dt_year (c : cell) : cell :=
  match c with
  | Date d => Num (year d)
  | _ => NaN
  end.

(** [astype(str)] of one value. *)
Definition astype_str (c : cell) : string :=
  match c with
  | NaN => "nan"
  | Num z => pretty z
  | Str s => s
  | Date d =>
      PyStr.zfill 4 (year d) +:+ "-" +:+ PyStr.zfill 2 (month d)
        +:+ "-" +:+ PyStr.zfill 2 (day d)
  end.

(** [Series.replace(old, new)] on whole values. *)
Definition replace_value (old new : string) (c : cell) : cell :=
  if decide (c = Str old) then Str new else c.

(** [Series.str.split(sep, expand=True)]: the parts of a string; a value that
    is not a string gives one missing part. *)
Definition str_split (sep : ascii) (c : cell) : list cell :=
  match c with
  | Str s => Str <$> PyStr.split sep s
  | _ => [NaN]
  end.

(** Number of columns of the expanded frame: the longest row. *)
Definition expand_width (parts : list (list cell)) : nat :=
  foldr Nat.max 0%nat (length <$> parts).

(** The distinct values of a column in the order of their first occurrence,
    missing values left out. *)
Definition unique (col : list cell) : list cell :=
  reverse (remove_dups (reverse (filter (fun c => c ≠ NaN) col))).

Definition count (v : cell) (col : list cell) : nat :=
  length (filter (fun c => c = v) col).

(** [Series.nlargest(n)] with keep='first': a stable descending sort, then
    the first [n]. *)
Fixpoint insert_desc (x : cell * nat) (s : list (cell * nat))
  : list (cell * nat) :=
  match s with
  | [] => [x]
  | y :: s' =>
      if decide (x.2 < y.2)%nat then y :: insert_desc x s' else x :: s
  end.

Definition stable_sort_desc (s : list (cell * nat)) : list (cell * nat) :=
  foldr insert_desc [] s.

Definition nlargest (n : nat) (s : list (cell * nat)) : list (cell * nat) :=
  take n (stable_sort_desc s).

Section Steps.

Context `{PandasLib}.

(** [Series.value_counts()] *)
Definition value_counts (col : list cell) : list (cell * nat) :=
  sort_values ((fun v => (v, count v col)) <$> unique col).

(** [col.value_counts().nlargest(n).index] *)
Definition top_values (n : nat) (col : list cell) : list cell :=
  fst <$> nlargest n (value_counts col).

(** [lambda b: b if b in top else 'Other'] *)
Definition keep_top (top : list cell) (c : cell) : cell :=
  if decide (c ∈ top) then c else Str "Other".

(** ** Step 3: clean_vehicle_and_insurance_info *)

(** [self.df.columns = self.df.columns.str.strip()] *)
Definition strip_columns (df : DataFrame) : result DataFrame :=
  let cols := PyStr.strip <$> columns df in
  if decide (NoDup cols) then
    Ok {| columns := cols;
          rows :=
            (fun r : gmap string cell =>
               list_to_map ((fun c => (PyStr.strip c, r.[c])) <$> columns df))
              <$> rows df |}
  else Raise DuplicateColumns.

(** The blocks "Clean column names" and "Filter and map vehicle types". *)
Definition filter_and_map_vehicle_types (df : DataFrame)
  : result DataFrame :=
  df ← strip_columns df;
  require "Vehicle_type" df ;;
  let df := select (fun r => negb (isin r.["Vehicle_type"] trailers)) df in
  Ok (assign "Vehicle_type"
        (fun r => map_dict vehicle_mapping r.["Vehicle_type"]) df).

(** The block "Calculate car age". *)
Definition calculate_car_age (df : DataFrame) : result DataFrame :=
  require "Year_of_manufacture" df ;;
  let df :=
    setitem "Year_of_manufacture"
      (from_option Date NaN <$> to_datetime (series "Year_of_manufacture" df))
      df in
  let df :=
    assign "Car_age"
      (fun r => sub (Num 2025) (dt_year r.["Year_of_manufacture"])) df in
  drop_columns ["Year_of_manufacture"] df.

Definition clean_vehicle_and_insurance_info (df : DataFrame)
  : result DataFrame :=
  df ← filter_and_map_vehicle_types df;
  calculate_car_age df.

(** ** Step 4: split_insurance_dates

    The expanded split has as many columns as the longest row; assigning it
    to the two new labels needs exactly two ("Columns must be same length
    as key").  A row with fewer parts is padded with missing values.  (On a
    column without any string pandas can refuse the [.str] accessor before
    it splits; the step raises in either case.) *)
Definition split_insurance_dates (df : DataFrame) : result DataFrame :=
  require "Insurance_period" df ;;
  let parts := str_split "-" <$> series "Insurance_period" df in
  if decide (expand_width parts = 2%nat) then
    let df := setitem "start_date" ((fun p => default NaN (p !! 0%nat)) <$> parts) df in
    let df := setitem "end_date" ((fun p => default NaN (p !! 1%nat)) <$> parts) df in
    let df := assign "start_date" (fun r => to_datetime_dmy r.["start_date"]) df in
    let df := assign "end_date" (fun r => to_datetime_dmy r.["end_date"]) df in
    Ok df
  else Raise ValueError.

(** ** Step 5: calculate_insurance_duration *)

Definition calculate_months (row : gmap string cell) : result cell :=
  diff ← relativedelta_of row.["end_date"] row.["start_date"];
  Ok (Num (years diff * 12 + (months diff + 1))).

(** [DataFrame.apply(f, axis=1)]: the rows in order, the first exception
    ends it. *)
Fixpoint apply_rows (f : gmap string cell → result cell)
    (rs : list (gmap string cell)) : result (list cell) :=
  match rs with
  | [] => Ok []
  | r :: rs' => v ← f r; vs ← apply_rows f rs'; Ok (v :: vs)
  end.

(** On a table without rows [apply] hands back a copy of the table, which
    cannot be assigned to one column. *)
Definition calculate_insurance_duration (df : DataFrame)
  : result DataFrame :=
  match rows df with
  | [] => Raise ValueError
  | _ =>
      require "end_date" df ;;
      require "start_date" df ;;
      values ← apply_rows calculate_months (rows df);
      let df := setitem "Insurance_months" values df in
      drop_columns ["Insurance_period"; "start_date"; "end_date"] df
  end.

(** ** Step 6: fill_missing_privileges *)

Definition fill_missing_privileges (df : DataFrame) : result DataFrame :=
  if decide ("Privileges" ∈ columns df) then
    Ok (assign "Privileges"
          (fun r => fillna (Str "Не инвалид") r.["Privileges"]) df)
  else Ok df.

(** ** Step 7: standardize_colors *)

Definition standardize_color (c : cell) : cell :=
  let col := astype_str c in
  Str (default "Прочие" (color_mapping !! PyStr.lower (PyStr.strip col))).

Definition standardize_colors (df : DataFrame) : result DataFrame :=
  if decide ("Color" ∈ columns df) then
    Ok (assign "Color" (fun r => standardize_color r.["Color"]) df)
  else Ok df.

(** ** Step 8: standardize_brands_and_models *)

Definition collapse (label : string) (old new : string) (n : nat)
    (df : DataFrame) : DataFrame :=
  if decide (label ∈ columns df) then
    let df := assign label (fun r => replace_value old new r.[label]) df in
    let top := top_values n (series label df) in
    assign label (fun r => keep_top top r.[label]) df
  else df.

Definition standardize_brands_and_models (df : DataFrame)
  : result DataFrame :=
  let df := collapse "Brand" "Лада" "Lada" 37 df in
  let df := collapse "Model" "." "Unknown" 50 df in
  Ok df.

(** ** Step 9: map_city_to_region *)

Definition city_cleaned (c : cell) : cell :=
  let x := astype_str c in
  Str (PyStr.strip (default "" (head (PyStr.split "," x)))).

Definition map_city_to_region (df : DataFrame) : result DataFrame :=
  if decide ("City" ∈ columns df) then
    let df := assign "City_cleaned" (fun r => city_cleaned r.["City"]) df in
    let df :=
      assign "Region" (fun r => map_dict region_mapping r.["City_cleaned"]) df in
    df ← drop_columns ["City_cleaned"; "City"] df;
    Ok (assign "Region" (fun r => fillna (Str "Unknown") r.["Region"]) df)
  else Ok df.

(** ** clean *)

Definition clean (df : DataFrame) : result DataFrame :=
  df ← drop_features df;
  df ← adjust_invalid_driving_experience df;
  df ← clean_vehicle_and_insurance_info df;
  df ← split_insurance_dates df;
  df ← calculate_insurance_duration df;
  df ← fill_missing_privileges df;
  df ← standardize_colors df;
  df ← standardize_brands_and_models df;
  df ← map_city_to_region df;
  Ok df.

(** The nine steps in the order [clean] runs them. *)
Definition pipeline : list (DataFrame → result DataFrame) :=
  [ drop_features;
    adjust_invalid_driving_experience;
    clean_vehicle_and_insurance_info;
    split_insurance_dates;
    calculate_insurance_duration;
    fill_missing_privileges;
    standardize_colors;
    standardize_brands_and_models;
    map_city_to_region ].

End Steps.

(** ** A reference instance of the library interface

    It is used to run the pipeline on concrete tables.  [to_datetime] is
    pandas' on timestamps (the datetime64 dtype of date-formatted
    spreadsheet cells), which it returns as they are, on missing values,
    which stay missing, and on numbers, which it reads as nanoseconds since
    1970-01-01.  On text it is not pandas: pandas parses what text it can,
    the instance gives NaT for all of it; the tables it is run on hold no
    text in Year_of_manufacture, and every theorem is proved for all
    instances of the interface.
    [sort_values] keeps equal counts in the order of first occurrence. *)

(** The date that lies [z] days after 1970-01-01. *)
Definition civil_from_days (z : Z) : date :=
  let z := z + 719468 in
  let era := z / 146097 in
  let doe := z mod 146097 in
  let yoe := (doe - doe / 1460 + doe / 36524 - doe / 146096) / 365 in
  let doy := doe - (365 * yoe + yoe / 4 - yoe / 100) in
  let mp := (5 * doy + 2) / 153 in
  let d := doy - (153 * mp + 2) / 5 + 1 in
  let m := if mp <? 10 then mp + 3 else mp - 9 in
  let y := yoe + era * 400 + (if m <=? 2 then 1 else 0) in
  mkdate y m d.

Definition to_datetime_cell (c : cell) : option date :=
  match c with
  | Date d => Some d
  | Num n =>
      if (- 2 ^ 63 <? n) && (n <? 2 ^ 63)
      then Some (civil_from_days (n / 86400000000000))
      else None
  | _ => None
  end.

#[refine] Global Instance reference_lib : PandasLib := {|
  to_datetime col := to_datetime_cell <$> col;
  sort_values := stable_sort_desc
|}.
Proof.
  - intros col. by rewrite length_fmap.
  - intros s. induction s as [|x s IH]; [done|]. simpl.
    rewrite <- IH at 2. generalize (stable_sort_desc s). intros l.
    induction l as [|y l IHl]; [done|]. simpl.
    case_decide; [|done]. rewrite IHl. apply Permutation_swap.
  - intros s. induction s as [|x s IH]; [constructor|]. simpl.
    revert IH. generalize (stable_sort_desc s). intros l Hl.
    induction Hl as [|y l Hs IHl Hall]; simpl.
    + repeat constructor.
    + case_decide.
      * constructor; [done|].
        assert (Hperm : insert_desc x l ≡ₚ x :: l).
        { clear. induction l as [|z l IHl]; [done|]. simpl.
          case_decide; [|done]. rewrite IHl. apply Permutation_swap. }
        rewrite Hperm. constructor; [lia | done].
      * constructor; [by constructor|].
        constructor; [lia|].
        eapply Forall_impl; [exact Hall|]. simpl. intros; lia.
Defined.

(** * Specification

    The notions the properties below are stated with. *)

(** [adjust_invalid_driving_experience] read row by row: the helper
    column, the first filter, the adjustment, the drop of the helper column
    and the second filter, with the subtraction of the table's dtypes. *)
Definition adjust_row (ints : bool) (r : gmap string cell)
  : option (gmap string cell) :=
  let r := <["Age_gap" := minus ints r.["Age"] r.["Driving_experience"]]> r in
  if gt r.["Driving_experience"] r.["Age"] then None
  else
    let r :=
      if lt r.["Age_gap"] (Num 18)
      then <["Driving_experience" :=
               minus ints r.["Driving_experience"]
                 (minus ints (Num 18) r.["Age_gap"])]> r
      else r in
    let r := delete "Age_gap" r in
    if ge r.["Driving_experience"] (Num 0) then Some r else None.

(** A known number that is not negative. *)
Definition nonneg (c : cell) : bool :=
  match c with
  | Num d => 0 <=? d
  | _ => false
  end.

(** A number within [-2 ^ 51, 2 ^ 51], or no number. *)
Definition small (c : cell) : bool :=
  match c with
  | Num z => (- 2 ^ 51 <=? z) && (z <=? 2 ^ 51)
  | _ => true
  end.

(** Every Age and every Driving_experience of the table lies within
    [-2 ^ 51, 2 ^ 51].  On such a table the subtractions of the second
    step are those of the integers, whether the columns are int64 (no
    wrap-around) or float64 (no rounding). *)
Definition experience_in_range (df : DataFrame) : Prop :=
  Forall (fun r : gmap string cell =>
            small r.["Age"] = true ∧ small r.["Driving_experience"] = true)
    (rows df).

(** What the step does to one row of such a table, in closed form: a row is
    kept when its experience is known, is not negative and, if the age is
    known too, does not exceed it and the age is at least 18; an experience
    above [age - 18] is cut down to [age - 18].  The helper column is
    gone. *)
Definition adjusted_row (r : gmap string cell) : option (gmap string cell) :=
  match r.["Age"], r.["Driving_experience"] with
  | Num a, Num d =>
      if decide (0 ≤ d ∧ d ≤ a ∧ 18 ≤ a)
      then Some (<["Driving_experience" := Num (Z.min d (a - 18))]>
                   (delete "Age_gap" r))
      else None
  | NaN, Num d =>
      if decide (0 ≤ d) then Some (delete "Age_gap" r) else None
  | _, _ => None
  end.

(** [shrinks ks df df']: the table [df'] has no more rows than [df], and
    each of its rows comes from a row of [df] with the same values in the
    columns [ks]. *)
Definition shrinks (ks : list string) (df df' : DataFrame) : Prop :=
  (nrows df' ≤ nrows df)%nat
  ∧ ∀ r', r' ∈ rows df' →
          ∃ r, r ∈ rows df ∧ Forall (fun k => r'.[k] = r.[k]) ks.

(** Labels the steps after [clean_vehicle_and_insurance_info] write to or
    drop. *)
Definition late_labels : list string :=
  [ "start_date"; "end_date"; "Insurance_months"; "Insurance_period";
    "Privileges"; "Color"; "Brand"; "Model"; "City_cleaned"; "Region";
    "City" ].

(** The four categories of [vehicle_mapping]. *)
Definition canonical_vehicle_types : list cell :=
  [ Str "Легковые автомобили"; Str "Мотоциклы"; Str "Грузовые"; Str "Автобусы" ].

(** How often [v] occurs in [col]. *)
Fixpoint frequency (v : cell) (col : list cell) : nat :=
  match col with
  | [] => 0
  | c :: col' => (if decide (c = v) then 1 else 0) + frequency v col'
  end%nat.

(** The value after the renaming of [old] to [new]. *)
Definition renamed (old new : string) (c : cell) : cell :=
  match c with
  | Str s => if String.eqb s old then Str new else Str s
  | _ => c
  end.

(** [top] holds the [n] most frequent values of [col]: distinct values of
    [col], none of them missing; [n] of them, or every value of [col] when
    there are fewer; and every value left out occurs at most as often as
    every value kept. *)
Definition most_frequent (n : nat) (col top : list cell) : Prop :=
  NoDup top
  ∧ (length top ≤ n)%nat
  ∧ (∀ v, v ∈ top → v ≠ NaN ∧ v ∈ col)
  ∧ (length top = n ∨ ∀ w, w ∈ col → w ≠ NaN → w ∈ top)
  ∧ (∀ v w, v ∈ top → w ∈ col → w ≠ NaN → w ∉ top →
            (frequency w col ≤ frequency v col)%nat).

(** Months since year 0 of the month a date lies in. *)
Definition month_index (d : date) : Z := year d * 12 + (month d - 1).

(** The date [n] months after [d] (before, if [n] is negative), the day
    clipped to the length of the month reached. *)
Definition add_months (d : date) (n : Z) : date :=
  let t := month_index d + n in
  let y := t / 12 in
  let m := t mod 12 + 1 in
  mkdate y m (Z.min (days_in_month y m) (day d)).

Definition date_leb (a b : date) : bool := negb (date_ltb b a).

(** [n] is the number of whole months from [s] to [e], counted towards
    zero: [s] moved by [n] months does not pass [e], and moved by one month
    more it does. *)
Definition whole_months (s e : date) (n : Z) : Prop :=
  if date_ltb e s
  then n ≤ 0 ∧ date_leb e (add_months s n) = true
       ∧ date_ltb (add_months s (n - 1)) e = true
  else 0 ≤ n ∧ date_leb (add_months s n) e = true
       ∧ date_ltb e (add_months s (n + 1)) = true.

(** Number of separators in a string. *)
Fixpoint occurrences (sep : ascii) (s : string) : nat :=
  match s with
  | EmptyString => 0
  | String c s' => (if Ascii.eqb c sep then 1 else 0) + occurrences sep s'
  end%nat.

(** The value [v] that the duration step computes for a row with start date
    [s] and end date [e]: the years and months of [relativedelta(e, s)],
    plus one; on dates of the calendar they are the whole months from [s] to
    [e], split into years and a rest of less than twelve months. *)
Definition months_between (s e : date) (v : cell) : Prop :=
  ∃ y m,
    relativedelta_of (Date e) (Date s) = Ok (mkdelta y m)
    ∧ v = Num (y * 12 + m + 1)
    ∧ (is_date s = true → is_date e = true →
       whole_months s e (y * 12 + m)
       ∧ if date_ltb e s then y ≤ 0 ∧ -11 ≤ m ≤ 0 else 0 ≤ y ∧ 0 ≤ m ≤ 11).

Section Statements.

Context `{PandasLib}.



(** "Every row of the table returned by clean() carries one of the four
    canonical vehicle types." *)
Definition vehicle_types_canonical (df : DataFrame) : Prop :=
  ∀ out, clean df = Ok out →
    Forall (fun r : gmap string cell =>
              r.["Vehicle_type"] ∈ canonical_vehicle_types) (rows out).

(** "adjust_invalid_driving_experience removes every row whose Age or
    Driving_experience is missing." *)
Definition missing_rows_removed (df : DataFrame) : Prop :=
  ∀ out, adjust_invalid_driving_experience df = Ok out →
    Forall (fun r : gmap string cell =>
              r.["Age"] ≠ NaN ∧ r.["Driving_experience"] ≠ NaN) (rows out).

(** The rows of the table and of the table a step returns, position by
    position: the column [label] holds the renamed value if it is one of
    the [n] most frequent renamed values, and "Other" if not. *)
Definition keeps_most_frequent (label old new : string) (n : nat)
    (df out : DataFrame) : Prop :=
  let col := renamed old new <$> series label df in
  let top := top_values n col in
  most_frequent n col top
  ∧ nrows out = nrows df
  ∧ ∀ i r, rows df !! i = Some r →
      ∃ r', rows out !! i = Some r'
            ∧ r'.[label]
              = if decide (renamed old new r.[label] ∈ top)
                then renamed old new r.[label]
                else Str "Other".

(** "The pipeline does not abort." *)
Definition clean_completes (df : DataFrame) : Prop :=
  ∃ out, clean df = Ok out.


End Statements.

(** The columns that [drop_features] removes. *)
Definition dropped_features : list string :=
  ["Unique number"; "Citizenship"; "Gender"; "Loss_amount"; "Accident_region"].

(** The labels that [clean_vehicle_and_insurance_info] works with inside
    [clean]: those of the input other than the dropped features and Age_gap,
    stripped of surrounding whitespace. *)
Definition stripped_labels (cols : list string) : list string :=
  PyStr.strip
    <$> filter (fun c => c ≠ "Age_gap")
          (filter (fun c => c ∉ dropped_features) cols).

(** The nine colour groups of [color_mapping] and the rest group. *)
Definition color_categories : list cell :=
  Str <$> [ "Белый"; "Черный"; "Серый"; "Синий"; "Зеленый"; "Красный";
            "Желтый"; "Коричневый"; "Фиолетовый"; "Прочие" ].


(** * Example tables *)

Definition input_columns : list string :=
  [ "Unique number"; "Citizenship"; "Gender"; "Loss_amount"; "Accident_region";
    "Age"; "Driving_experience"; "Vehicle_type"; "Year_of_manufacture";
    "Insurance_period" ].

(** A policy row with the ten required columns. *)
Definition policy (age experience vehicle_type year period : cell)
  : gmap string cell :=
  list_to_map
    [ ("Unique number", Num 1); ("Citizenship", Str "KZ"); ("Gender", Str "M");
      ("Loss_amount", Num 0); ("Accident_region", Str "Астана");
      ("Age", age); ("Driving_experience", experience);
      ("Vehicle_type", vehicle_type); ("Year_of_manufacture", year);
      ("Insurance_period", period) ].


(** One policy on a vehicle type outside the five mapped labels. *)
Definition tram : DataFrame :=
  mkdf input_columns
    [ policy (Num 40) (Num 10) (Str "Трамваи")
        (Date (mkdate 2015 1 1)) (Str "01.01.2024-31.03.2024") ].

(** Three policies: a car, a tram, and a car of a driver who started at
    15. *)
Definition three_policies : DataFrame :=
  mkdf input_columns
    [ policy (Num 40) (Num 10) (Str "Легковые автомобили")
        (Date (mkdate 2015 1 1)) (Str "01.01.2024-31.03.2024");
      policy (Num 52) (Num 30) (Str "Трамваи")
        NaN (Str "15.06.2023-14.06.2024");
      policy (Num 20) (Num 5) (Str "Автобусы, свыше 16 п/м")
        (Date (mkdate 2020 5 17)) (Str "31.01.2024-29.02.2024") ].

(** Three drivers: a plausible one, one who started at 15, one with more
    experience than age. *)
Definition three_drivers : DataFrame :=
  mkdf ["Age"; "Driving_experience"]
    [ {[ "Age" := Num 40; "Driving_experience" := Num 10 ]};
      {[ "Age" := Num 20; "Driving_experience" := Num 5 ]};
      {[ "Age" := Num 20; "Driving_experience" := Num 25 ]} ].

Definition no_age : DataFrame :=
  mkdf ["Age"; "Driving_experience"]
    [ {[ "Age" := NaN; "Driving_experience" := Num 5 ]} ].

(** Four drivers: one without an age, one without an age and with a
    negative experience, one without an experience, one with both. *)
Definition missing_values : DataFrame :=
  mkdf ["Age"; "Driving_experience"]
    [ {[ "Age" := NaN; "Driving_experience" := Num 5 ]};
      {[ "Age" := NaN; "Driving_experience" := Num (-1) ]};
      {[ "Age" := Num 30; "Driving_experience" := NaN ]};
      {[ "Age" := Num 40; "Driving_experience" := Num 10 ]} ].

(** Two drivers in two int64 columns, with numbers at the ends of
    int64. *)
Definition int64_extremes : DataFrame :=
  mkdf ["Age"; "Driving_experience"]
    [ {[ "Age" := Num (2 ^ 63 - 1); "Driving_experience" := Num (-1) ]};
      {[ "Age" := Num (- 2 ^ 63 + 10);
         "Driving_experience" := Num (- 2 ^ 63 + 5) ]} ].

(** A table with a Color column: a known shade, a missing colour, an
    unknown colour. *)
Definition colors_example : DataFrame :=
  mkdf ["Color"]
    [ {[ "Color" := Str " Темно-Серый " ]};
      {[ "Color" := NaN ]};
      {[ "Color" := Str "розовый" ]} ].

Definition one_truck : DataFrame :=
  mkdf ["Vehicle_type"; "Year_of_manufacture"]
    [ {[ "Vehicle_type" := Str "Грузовые автомобили";
         "Year_of_manufacture" := Date (mkdate 2015 6 1) ]} ].

(** A table with only an Insurance_period column. *)
Definition periods (values : list cell) : DataFrame :=
  mkdf ["Insurance_period"]
    ((fun v : cell => ({[ "Insurance_period" := v ]} : gmap string cell))
       <$> values).

Definition one_quarter : DataFrame :=
  periods [Str "01.01.2024-31.03.2024"].

(** [one_quarter] after the date split. *)
Definition one_quarter_dates : DataFrame :=
  mkdf ["Insurance_period"; "start_date"; "end_date"]
    [ {[ "Insurance_period" := Str "01.01.2024-31.03.2024";
         "start_date" := Date (mkdate 2024 1 1);
         "end_date" := Date (mkdate 2024 3 31) ]} ].

(** Two policies after the date split; the end date of the second did not
    parse. *)
Definition mixed_dates : DataFrame :=
  mkdf ["Insurance_period"; "start_date"; "end_date"]
    [ {[ "Insurance_period" := Str "01.01.2024-31.03.2024";
         "start_date" := Date (mkdate 2024 1 1);
         "end_date" := Date (mkdate 2024 3 31) ]};
      {[ "Insurance_period" := Str "01.01.2024-31.13.2024";
         "start_date" := Date (mkdate 2024 1 1);
         "end_date" := NaN ]} ].

(** The end date names a thirteenth month. *)
Definition unparsable_end : DataFrame :=
  mkdf input_columns
    [ policy (Num 40) (Num 10) (Str "Легковые автомобили")
        (Date (mkdate 2015 1 1)) (Str "01.01.2024-31.13.2024") ].

(** The dates are written with hyphens. *)
Definition hyphenated_dates : DataFrame :=
  mkdf input_columns
    [ policy (Num 40) (Num 10) (Str "Легковые автомобили")
        (Date (mkdate 2015 1 1)) (Str "01-01-2024-31-03-2024") ].

(** A table with a Brand column only. *)
Definition brands_example : DataFrame :=
  mkdf ["Brand"]
    [ {[ "Brand" := Str "Лада" ]};
      {[ "Brand" := Str "Lada" ]};
      {[ "Brand" := Str "Toyota" ]};
      {[ "Brand" := NaN ]} ].

(** A table with a trailer, a truck and a vehicle without a type, under
    labels that carry whitespace. *)
Definition padded_labels : DataFrame :=
  mkdf [" Vehicle_type"; "Year_of_manufacture "]
    [ {[ " Vehicle_type" := Str "Прицеп к легковой а/м";
         "Year_of_manufacture " := Date (mkdate 2019 3 1) ]};
      {[ " Vehicle_type" := Str "Грузовые автомобили";
         "Year_of_manufacture " := Date (mkdate 2015 6 1) ]};
      {[ " Vehicle_type" := NaN;
         "Year_of_manufacture " := Date (mkdate 2010 1 1) ]} ].

(** The same three vehicles under plain labels. *)
Definition truck_and_trailer : DataFrame :=
  mkdf ["Vehicle_type"; "Year_of_manufacture"]
    [ {[ "Vehicle_type" := Str "Прицеп к легковой а/м";
         "Year_of_manufacture" := Date (mkdate 2019 3 1) ]};
      {[ "Vehicle_type" := Str "Грузовые автомобили";
         "Year_of_manufacture" := Date (mkdate 2015 6 1) ]};
      {[ "Vehicle_type" := NaN;
         "Year_of_manufacture" := Date (mkdate 2010 1 1) ]} ].


(** * Properties *)

(** ** The steps on small tables *)

(** The plausible driver is kept as he is, the driver who started at 15 has
    his experience cut from 5 to 2, the driver with more experience than age
    is dropped. *)
Example adjust_three_drivers :
  adjust_invalid_driving_experience three_drivers
  = Ok (mkdf ["Age"; "Driving_experience"]
          [ {[ "Age" := Num 40; "Driving_experience" := Num 10 ]};
            {[ "Age" := Num 20; "Driving_experience" := Num 2 ]} ]).
Proof. vm_compute. reflexivity. Qed.

(** In int64 columns the subtractions wrap around: an age gap of [2 ^ 63]
    is read as [- 2 ^ 63], and both rows are kept with an experience near
    [2 ^ 63], far above the age of the second. *)
Example adjust_wraps_around :
  adjust_invalid_driving_experience int64_extremes
  = Ok (mkdf ["Age"; "Driving_experience"]
          [ {[ "Age" := Num (2 ^ 63 - 1);
               "Driving_experience" := Num 9223372036854775789 ]};
            {[ "Age" := Num (- 2 ^ 63 + 10);
               "Driving_experience" := Num (2 ^ 63 - 8) ]} ]).
Proof. vm_compute. reflexivity. Qed.

(** A float64 column with a number that float64 would round is where the
    embedding stops. *)
Example adjust_stops_at_rounding :
  adjust_invalid_driving_experience
    (mkdf ["Age"; "Driving_experience"]
       [ {[ "Age" := Num (2 ^ 60); "Driving_experience" := NaN ]} ])
  = Raise Inexact.
Proof. vm_compute. reflexivity. Qed.

(** The date split of two periods, the second with a thirteenth month. *)
Example split_gives_mixed_dates :
  split_insurance_dates
    (periods [Str "01.01.2024-31.03.2024"; Str "01.01.2024-31.13.2024"])
  = Ok mixed_dates.
Proof. vm_compute. reflexivity. Qed.

(** A date before 1677-09-22 or after 2262-04-11 is out of the bounds of a
    nanosecond timestamp and becomes missing. *)
Example dates_out_of_bounds :
  to_datetime_dmy (Str "21.09.1677") = NaN
  ∧ to_datetime_dmy (Str "22.09.1677") = Date (mkdate 1677 9 22)
  ∧ to_datetime_dmy (Str "11.04.2262") = Date (mkdate 2262 4 11)
  ∧ to_datetime_dmy (Str "12.04.2262") = NaN.
Proof. repeat split; vm_compute; reflexivity. Qed.

Example standardize_known_and_unknown_colors :
  standardize_color (Str " Темно-Серый ") = Str "Серый"
  ∧ standardize_color (Str "розовый") = Str "Прочие".
Proof. split; vm_compute; reflexivity. Qed.

Example map_two_cities :
  map_city_to_region
    (mkdf ["City"]
       [ {[ "City" := Str "Алматы, мкр. Самал" ]};
         {[ "City" := Str "Nowhereville" ]} ])
  = Ok (mkdf ["Region"]
          [ {[ "Region" := Str "Алматинская область" ]};
            {[ "Region" := Str "Unknown" ]} ]).
Proof. vm_compute. reflexivity. Qed.

(** A year of manufacture stored as a number is read as nanoseconds after
    1970-01-01, whatever the number. *)
Example car_age_of_numeric_year :
  (fun out => getitem "Car_age" <$> rows out)
    <$> (match calculate_car_age
                 (mkdf ["Year_of_manufacture"]
                    [ {[ "Year_of_manufacture" := Num 2015 ]};
                      {[ "Year_of_manufacture" := Date (mkdate 2015 1 1) ]} ])
         with
         | Ok out => Some out
         | Raise _ => None
         end)
  = Some [Num 55; Num 10].
Proof. vm_compute. reflexivity. Qed.

Example clean_three_policies :
  (fun out => (columns out,
               (fun r : gmap string cell =>
                  (r.["Driving_experience"], r.["Vehicle_type"],
                   r.["Car_age"], r.["Insurance_months"])) <$> rows out))
    <$> (match clean three_policies with
         | Ok out => Some out
         | Raise _ => None
         end)
  = Some (["Age"; "Driving_experience"; "Vehicle_type"; "Car_age";
           "Insurance_months"],
          [ (Num 10, Str "Легковые автомобили", Num 10, Num 3);
            (Num 30, NaN, NaN, Num 12);
            (Num 2, Str "Автобусы", Num 5, Num 2) ]).
Proof. vm_compute. reflexivity. Qed.

(** ** Reasoning about results and tables *)

Lemma bind_Ok {A B} (m : result A) (k : A → result B) (b : B) :
  m ≫= k = Ok b → ∃ a, m = Ok a ∧ k a = Ok b.
Proof. destruct m as [a|e]; [|done]. intros Hk. by exists a. Qed.

Lemma require_Ok label df u : require label df = Ok u → label ∈ columns df.
Proof. unfold require. by case_decide. Qed.

Lemma require_elem label df : label ∈ columns df → require label df = Ok tt.
Proof. unfold require. by case_decide. Qed.

Lemma getitem_insert_eq label v (r : gmap string cell) :
  (<[label := v]> r).[label] = v.
Proof. unfold getitem. by rewrite lookup_insert_eq. Qed.

Lemma getitem_insert_ne label k v (r : gmap string cell) :
  label ≠ k → (<[label := v]> r).[k] = r.[k].
Proof. intros. unfold getitem. by rewrite lookup_insert_ne. Qed.

Lemma getitem_delete_ne label k (r : gmap string cell) :
  label ≠ k → (delete label r).[k] = r.[k].
Proof. intros. unfold getitem. by rewrite lookup_delete_ne. Qed.

Lemma getitem_deletes_ne labels k (r : gmap string cell) :
  k ∉ labels → (foldr delete r labels).[k] = r.[k].
Proof.
  induction labels as [|l labels IH]; [done|]. simpl. intros Hk.
  apply not_elem_of_cons in Hk as [Hne Hk].
  rewrite getitem_delete_ne by done. by apply IH.
Qed.

Lemma getitem_Some label (r : gmap string cell) c :
  r.[label] = c → c ≠ NaN → r !! label = Some c.
Proof. unfold getitem. destruct (r !! label); simpl; congruence. Qed.

Lemma drop_columns_Ok labels df df' :
  drop_columns labels df = Ok df' →
  columns df' = filter (fun c => c ∉ labels) (columns df)
  ∧ rows df' = (fun r : gmap string cell => foldr delete r labels) <$> rows df.
Proof.
  unfold drop_columns. destruct (first_missing _ _); [done|].
  intros [= <-]. done.
Qed.

Lemma drop_columns_present labels df :
  Forall (fun l => l ∈ columns df) labels →
  drop_columns labels df
  = Ok {| columns := filter (fun c => c ∉ labels) (columns df);
          rows := (fun r : gmap string cell => foldr delete r labels) <$> rows df |}.
Proof.
  intros Hall. unfold drop_columns, first_missing.
  replace (filter (fun l => l ∉ columns df) labels) with (@nil string); [done|].
  symmetry. induction Hall as [|l ls Hl Hls IH]; [done|].
  rewrite filter_cons. case_decide; [done|]. exact IH.
Qed.

Lemma elem_of_add_label label k cols :
  k ∈ add_label label cols ↔ k = label ∨ k ∈ cols.
Proof.
  unfold add_label. case_decide as Hin.
  - split; [by right|]. by intros [->|].
  - rewrite elem_of_app, list_elem_of_singleton. tauto.
Qed.

(** ** adjust_invalid_driving_experience, row by row *)

Lemma filter_fmap_omap {A} (h g f : A → A) (Q P : A → bool) (F : A → option A)
    (l : list A) :
  (∀ r, r ∈ l →
        F r = if Q (h r)
              then (if P (f (g (h r))) then Some (f (g (h r))) else None)
              else None) →
  filter (fun r => P r = true)
    (f <$> (g <$> filter (fun r => Q r = true) (h <$> l)))
  = omap F l.
Proof.
  induction l as [|r l IH]; [done|]. intros HF.
  assert (Hl : ∀ r', r' ∈ l → r' ∈ r :: l) by (intros; by right).
  specialize (IH (fun r' Hr' => HF r' (Hl r' Hr'))).
  rewrite fmap_cons, filter_cons. cbn [omap list_omap].
  rewrite <- IH, (HF r) by left.
  destruct (Q (h r)).
  - rewrite decide_True by done. rewrite !fmap_cons, filter_cons.
    destruct (P _); [by rewrite decide_True|by rewrite decide_False].
  - by rewrite decide_False.
Qed.

Lemma wrap64_small z : - 2 ^ 63 ≤ z < 2 ^ 63 → wrap64 z = z.
Proof. intros Hz. unfold wrap64. rewrite Z.mod_small by lia. lia. Qed.

Lemma small_Num z : small (Num z) = true ↔ - 2 ^ 51 ≤ z ≤ 2 ^ 51.
Proof. cbn [small]. rewrite andb_true_iff, !Z.leb_le. done. Qed.

Lemma minus_exact ints x y :
  - 2 ^ 63 ≤ x - y < 2 ^ 63 → minus ints (Num x) (Num y) = Num (x - y).
Proof. intros Hz. cbn [minus]. destruct ints; [|done]. by rewrite wrap64_small. Qed.

(** The step is [adjust_row], row by row. *)
Lemma adjust_rows_code df out :
  adjust_invalid_driving_experience df = Ok out →
  rows out = omap (adjust_row (both_int64 df)) (rows df).
Proof.
  unfold adjust_invalid_driving_experience. intros Hrun.
  apply bind_Ok in Hrun as (_ & _ & Hrun).
  apply bind_Ok in Hrun as (_ & _ & Hrun).
  destruct (negb _) in Hrun; [done|].
  destruct (negb _) in Hrun; [done|].
  apply bind_Ok in Hrun as (mid & Hdrop & Hrun).
  injection Hrun as <-. apply drop_columns_Ok in Hdrop as [_ Hrows].
  cbn [rows select assign columns] in *. rewrite Hrows.
  apply filter_fmap_omap with
    (P := fun r : gmap string cell => ge r.["Driving_experience"] (Num 0))
    (Q := fun r : gmap string cell =>
            negb (gt r.["Driving_experience"] r.["Age"])).
  intros r _. unfold adjust_row. cbn [foldr].
  by destruct (gt _ _).
Qed.

(** On numbers within the range, [adjust_row] is the closed form. *)
Lemma adjust_row_exact ints (r : gmap string cell) :
  numeric r.["Age"] = true → numeric r.["Driving_experience"] = true →
  small r.["Age"] = true → small r.["Driving_experience"] = true →
  adjust_row ints r = adjusted_row r.
Proof.
  intros Ha He Hsa Hse. unfold adjust_row, adjusted_row, gt, lt, ge.
  rewrite !getitem_insert_ne, getitem_insert_eq by done.
  destruct (r.["Age"]) as [|a| |] eqn:Hra; try done;
    destruct (r.["Driving_experience"]) as [|d| |] eqn:Hrd; try done.
  - cbn [minus compare_cells].
    rewrite getitem_delete_ne, getitem_insert_ne, Hrd by done. done.
  - cbn [minus compare_cells].
    rewrite getitem_delete_ne, getitem_insert_ne, Hrd by done.
    rewrite delete_insert_eq. cbn [compare_cells].
    destruct (Z.geb_spec d 0); case_decide; try lia; done.
  - cbn [minus compare_cells].
    rewrite getitem_delete_ne, getitem_insert_ne, Hrd by done. done.
  - apply small_Num in Hsa, Hse.
    rewrite (minus_exact ints a d) by lia. cbn [compare_cells].
    destruct (Z.gtb_spec d a) as [Hgt|Hle].
    { rewrite decide_False by lia. done. }
    destruct (Z.ltb_spec (a - d) 18) as [Hunder|Hover].
    + rewrite getitem_delete_ne, getitem_insert_eq by done.
      rewrite delete_insert_ne, delete_insert_eq by done.
      rewrite (minus_exact ints 18) by lia. rewrite minus_exact by lia.
      replace (d - (18 - (a - d))) with (Z.min d (a - 18)) by lia.
      cbn [compare_cells].
      destruct (Z.geb_spec (Z.min d (a - 18)) 0); case_decide; try lia; done.
    + rewrite getitem_delete_ne, getitem_insert_ne, Hrd by done.
      rewrite delete_insert_eq. cbn [compare_cells].
      destruct (Z.geb_spec d 0); case_decide; try lia; try done.
      f_equal. replace (Z.min d (a - 18)) with d by lia.
      rewrite insert_id; [done|].
      rewrite lookup_delete_ne by done. by apply getitem_Some.
Qed.

Lemma adjust_numeric df out :
  adjust_invalid_driving_experience df = Ok out →
  ∀ r, r ∈ rows df →
       numeric r.["Age"] = true ∧ numeric r.["Driving_experience"] = true.
Proof.
  unfold adjust_invalid_driving_experience. intros Hrun.
  apply bind_Ok in Hrun as (_ & _ & Hrun).
  apply bind_Ok in Hrun as (_ & _ & Hrun).
  destruct (negb _) eqn:Hnum in Hrun; [done|].
  apply negb_false_iff, andb_true_iff in Hnum as [Hage Hexp].
  intros r Hr. rewrite forallb_forall in Hage, Hexp. split.
  - apply Hage, list_elem_of_In. unfold series. by apply list_elem_of_fmap_2.
  - apply Hexp, list_elem_of_In. unfold series. by apply list_elem_of_fmap_2.
Qed.

(** On a table within the range, the step is the closed form, row by
    row. *)
Lemma adjust_rows df out :
  experience_in_range df →
  adjust_invalid_driving_experience df = Ok out →
  rows out = omap adjusted_row (rows df).
Proof.
  intros Hrange Hrun. rewrite (adjust_rows_code _ _ Hrun).
  pose proof (adjust_numeric _ _ Hrun) as Hnum.
  unfold experience_in_range in Hrange. rewrite Forall_forall in Hrange.
  generalize (both_int64 df). intros ints.
  induction (rows df) as [|r l IH]; [done|]. cbn [omap list_omap].
  destruct (Hnum r) as [Ha He]; [left|].
  destruct (Hrange r) as [Hsa Hse]; [left|].
  rewrite adjust_row_exact by done.
  rewrite IH; [done|..]; intros; [apply Hrange|apply Hnum]; by right.
Qed.

(** A row that the step keeps has a known experience that is not negative,
    whatever the numbers. *)
Lemma adjust_row_nonneg ints (r r' : gmap string cell) :
  adjust_row ints r = Some r' →
  ∃ d, r'.["Driving_experience"] = Num d ∧ 0 ≤ d.
Proof.
  unfold adjust_row. destruct (gt _ _); [done|].
  destruct (ge _ _) eqn:Hge; [|done]. intros [= <-].
  unfold ge, compare_cells in Hge.
  destruct (_.["Driving_experience"]) as [|d| |]; try done.
  exists d. split; [done|]. apply Z.geb_le in Hge. lia.
Qed.

(** A row without an age is kept as it is if its experience is known and
    not negative, and dropped if not. *)
Lemma adjust_row_without_age ints (r : gmap string cell) :
  r.["Age"] = NaN →
  adjust_row ints r
  = if ge r.["Driving_experience"] (Num 0)
    then Some (delete "Age_gap" r) else None.
Proof.
  intros Ha. unfold adjust_row.
  rewrite !getitem_insert_ne, getitem_insert_eq, Ha by done.
  assert (Hgap : ∀ c, minus ints NaN c = NaN) by done. rewrite Hgap.
  assert (Hgt : ∀ c, gt c NaN = false) by (by intros []). rewrite Hgt.
  cbn [lt compare_cells]. rewrite delete_insert_eq.
  by rewrite getitem_delete_ne by done.
Qed.

Lemma adjust_row_age ints (r r' : gmap string cell) :
  adjust_row ints r = Some r' → r'.["Age"] = r.["Age"].
Proof.
  unfold adjust_row. destruct (gt _ _); [done|].
  destruct (ge _ _); [|done]. intros [= <-].
  rewrite getitem_delete_ne by done.
  destruct (lt _ _); by rewrite !getitem_insert_ne by done.
Qed.

(** ** What a step leaves of the rows *)

Lemma shrinks_refl ks df : shrinks ks df df.
Proof.
  split; [done|]. intros r Hr. exists r. split; [done|].
  by apply Forall_forall.
Qed.

Lemma shrinks_trans ks df1 df2 df3 :
  shrinks ks df1 df2 → shrinks ks df2 df3 → shrinks ks df1 df3.
Proof.
  intros [Hn1 H1] [Hn2 H2]. split; [lia|].
  intros r3 Hr3. destruct (H2 r3 Hr3) as (r2 & Hr2 & H23).
  destruct (H1 r2 Hr2) as (r1 & Hr1 & H12). exists r1. split; [done|].
  rewrite Forall_forall in *. intros k Hk. by rewrite H23, H12.
Qed.

Lemma shrinks_assign ks label f df :
  label ∉ ks → shrinks ks df (assign label f df).
Proof.
  intros Hl. split.
  - unfold nrows, assign. simpl. by rewrite length_fmap.
  - intros r' Hr'. simpl in Hr'.
    apply list_elem_of_fmap in Hr' as (r & -> & Hr). exists r.
    split; [done|]. apply Forall_forall. intros k Hk.
    apply getitem_insert_ne. by intros ->.
Qed.

Lemma shrinks_setitem ks label values df :
  label ∉ ks → shrinks ks df (setitem label values df).
Proof.
  intros Hl. split.
  - unfold nrows, setitem. simpl. rewrite length_zip_with. lia.
  - intros r' Hr'. simpl in Hr'.
    apply elem_of_zip_with in Hr' as (r & v & -> & Hr & _). exists r.
    split; [done|]. apply Forall_forall. intros k Hk.
    apply getitem_insert_ne. by intros ->.
Qed.

Lemma shrinks_select ks keep df : shrinks ks df (select keep df).
Proof.
  split.
  - unfold nrows, select. simpl. apply length_filter.
  - intros r Hr. simpl in Hr. apply list_elem_of_filter in Hr as [_ Hr].
    exists r. split; [done|]. by apply Forall_forall.
Qed.

Lemma shrinks_drop_columns ks labels df df' :
  drop_columns labels df = Ok df' →
  (∀ l, l ∈ labels → l ∉ ks) →
  shrinks ks df df'.
Proof.
  intros [_ Hrows]%drop_columns_Ok Hl. split.
  - unfold nrows. by rewrite Hrows, length_fmap.
  - intros r' Hr'. rewrite Hrows in Hr'.
    apply list_elem_of_fmap in Hr' as (r & -> & Hr). exists r.
    split; [done|]. apply Forall_forall. intros k Hk.
    apply getitem_deletes_ne. intros Hkl. by apply (Hl k).
Qed.

Lemma strip_columns_Ok df df' :
  strip_columns df = Ok df' →
  NoDup (PyStr.strip <$> columns df)
  ∧ columns df' = PyStr.strip <$> columns df
  ∧ rows df'
    = (fun r : gmap string cell =>
         list_to_map ((fun c => (PyStr.strip c, r.[c])) <$> columns df))
        <$> rows df.
Proof. unfold strip_columns. case_decide; [|done]. by intros [= <-]. Qed.

Lemma getitem_stripped cols (r : gmap string cell) k :
  NoDup (PyStr.strip <$> cols) → k ∈ cols → PyStr.strip k = k →
  (list_to_map ((fun c => (PyStr.strip c, r.[c])) <$> cols)
     : gmap string cell).[k] = r.[k].
Proof.
  intros Hnd Hk Hs. unfold getitem at 1.
  erewrite (elem_of_list_to_map_1 _ k (r.[k])); [done| |].
  - by rewrite <- list_fmap_compose.
  - apply list_elem_of_fmap. exists k. by rewrite Hs.
Qed.

Lemma shrinks_strip_columns ks df df' :
  strip_columns df = Ok df' →
  Forall (fun k => k ∈ columns df ∧ PyStr.strip k = k) ks →
  shrinks ks df df'.
Proof.
  intros (Hnd & _ & Hrows)%strip_columns_Ok Hks. split.
  - unfold nrows. by rewrite Hrows, length_fmap.
  - intros r' Hr'. rewrite Hrows in Hr'.
    apply list_elem_of_fmap in Hr' as (r & -> & Hr). exists r.
    split; [done|]. eapply Forall_impl; [exact Hks|].
    intros k [Hk Hs]. by apply getitem_stripped.
Qed.

Lemma length_omap_le {A B} (f : A → option B) (l : list A) :
  (length (omap f l) ≤ length l)%nat.
Proof.
  induction l as [|x l IH]; [done|]. cbn [omap list_omap].
  destruct (f x); simpl; lia.
Qed.

(** ** The steps, one by one *)

Lemma shrinks_then_assign ks label f df df' :
  label ∉ ks → shrinks ks df df' → shrinks ks df (assign label f df').
Proof. intros. eapply shrinks_trans; [done|by apply shrinks_assign]. Qed.

Lemma shrinks_then_setitem ks label values df df' :
  label ∉ ks → shrinks ks df df' → shrinks ks df (setitem label values df').
Proof. intros. eapply shrinks_trans; [done|by apply shrinks_setitem]. Qed.

Lemma shrinks_then_select ks keep df df' :
  shrinks ks df df' → shrinks ks df (select keep df').
Proof. intros. eapply shrinks_trans; [done|by apply shrinks_select]. Qed.

Lemma shrinks_then_drop ks labels df mid df' :
  drop_columns labels mid = Ok df' →
  Forall (fun l => l ∉ ks) labels →
  shrinks ks df mid → shrinks ks df df'.
Proof.
  intros Hdrop Hl Hmid. eapply shrinks_trans; [exact Hmid|].
  eapply shrinks_drop_columns; [exact Hdrop|]. by apply Forall_forall.
Qed.

(** Decides a closed proposition by evaluation. *)
Ltac evaluate := apply (bool_decide_unpack _); vm_compute; exact I.

Ltac fresh_label := first [assumption | evaluate].

(** Peels the assignments, selections and drops off the table a step
    returns. *)
Ltac shrink :=
  repeat first
    [ apply shrinks_refl
    | apply shrinks_then_assign; [fresh_label|]
    | apply shrinks_then_setitem; [fresh_label|]
    | apply shrinks_then_select
    | eapply shrinks_then_drop;
        [ eassumption
        | solve [repeat (constructor; [fresh_label|]); constructor]
        | ] ].

Section StepFacts.

Context `{PandasLib}.

Lemma drop_features_shrinks df df' :
  drop_features df = Ok df' → shrinks [] df df'.
Proof.
  intros Hrun. unfold drop_features in Hrun.
  eapply shrinks_then_drop; [exact Hrun| |apply shrinks_refl].
  apply Forall_forall. intros l _ Hl. by apply elem_of_nil in Hl.
Qed.

Lemma adjust_shrinks df df' :
  adjust_invalid_driving_experience df = Ok df' → shrinks [] df df'.
Proof.
  intros Hrows%adjust_rows_code. split.
  - unfold nrows. rewrite Hrows. apply length_omap_le.
  - intros r' Hr'. rewrite Hrows in Hr'.
    apply list_elem_of_omap in Hr' as (r & Hr & _). by exists r.
Qed.

Lemma clean_vehicle_shrinks ks df df' :
  clean_vehicle_and_insurance_info df = Ok df' →
  Forall (fun k => k ∈ columns df ∧ PyStr.strip k = k) ks →
  "Vehicle_type" ∉ ks → "Year_of_manufacture" ∉ ks → "Car_age" ∉ ks →
  shrinks ks df df'.
Proof.
  unfold clean_vehicle_and_insurance_info. intros Hrun Hks Hv Hy Hc.
  apply bind_Ok in Hrun as (mid & Hmap & Hrun).
  unfold filter_and_map_vehicle_types in Hmap.
  apply bind_Ok in Hmap as (df1 & Hstrip & Hmap).
  apply bind_Ok in Hmap as (_ & _ & Hmap). injection Hmap as <-.
  unfold calculate_car_age in Hrun.
  apply bind_Ok in Hrun as (_ & _ & Hrun).
  shrink. by eapply shrinks_strip_columns.
Qed.

Lemma split_shrinks ks df df' :
  split_insurance_dates df = Ok df' →
  "start_date" ∉ ks → "end_date" ∉ ks →
  shrinks ks df df'.
Proof.
  unfold split_insurance_dates. intros Hrun Hs He.
  apply bind_Ok in Hrun as (_ & _ & Hrun).
  case_decide; [|done]. injection Hrun as <-.
  shrink.
Qed.

Lemma duration_shrinks ks df df' :
  calculate_insurance_duration df = Ok df' →
  "Insurance_months" ∉ ks → "Insurance_period" ∉ ks →
  "start_date" ∉ ks → "end_date" ∉ ks →
  shrinks ks df df'.
Proof.
  unfold calculate_insurance_duration. intros Hrun Hm Hp Hs He.
  destruct (rows df) eqn:Hrows; [done|]. rewrite <- Hrows in Hrun.
  apply bind_Ok in Hrun as (_ & _ & Hrun).
  apply bind_Ok in Hrun as (_ & _ & Hrun).
  apply bind_Ok in Hrun as (values & _ & Hrun).
  shrink.
Qed.

Lemma privileges_shrinks ks df df' :
  fill_missing_privileges df = Ok df' → "Privileges" ∉ ks →
  shrinks ks df df'.
Proof.
  unfold fill_missing_privileges. intros Hrun Hp.
  case_decide; injection Hrun as <-; shrink.
Qed.

Lemma colors_shrinks ks df df' :
  standardize_colors df = Ok df' → "Color" ∉ ks → shrinks ks df df'.
Proof.
  unfold standardize_colors. intros Hrun Hp.
  case_decide; injection Hrun as <-; shrink.
Qed.

Lemma collapse_shrinks ks label old new n df :
  label ∉ ks → shrinks ks df (collapse label old new n df).
Proof.
  intros Hl. unfold collapse. case_decide; shrink.
Qed.

Lemma brands_shrinks ks df df' :
  standardize_brands_and_models df = Ok df' →
  "Brand" ∉ ks → "Model" ∉ ks → shrinks ks df df'.
Proof.
  unfold standardize_brands_and_models. intros [= <-] Hb Hm.
  eapply shrinks_trans; by apply collapse_shrinks.
Qed.

Lemma region_shrinks ks df df' :
  map_city_to_region df = Ok df' →
  "City_cleaned" ∉ ks → "Region" ∉ ks → "City" ∉ ks →
  shrinks ks df df'.
Proof.
  unfold map_city_to_region. intros Hrun Hc Hr Hy.
  case_decide; [|injection Hrun as <-; apply shrinks_refl].
  apply bind_Ok in Hrun as (mid & Hdrop & Hrun). injection Hrun as <-.
  shrink.
Qed.

(** The six steps after the vehicle step leave every other column alone. *)
Lemma late_steps_shrink ks df4 df9 :
  (∀ l, l ∈ late_labels → l ∉ ks) →
  (df ← split_insurance_dates df4;
   df ← calculate_insurance_duration df;
   df ← fill_missing_privileges df;
   df ← standardize_colors df;
   df ← standardize_brands_and_models df;
   df ← map_city_to_region df;
   Ok df) = Ok df9 →
  shrinks ks df4 df9.
Proof.
  intros Hks Hrun.
  assert (Hl : ∀ l, bool_decide (l ∈ late_labels) = true → l ∉ ks).
  { intros l Hl. apply Hks. by apply bool_decide_eq_true in Hl. }
  apply bind_Ok in Hrun as (df5 & H4 & Hrun).
  apply bind_Ok in Hrun as (df6 & H5 & Hrun).
  apply bind_Ok in Hrun as (df7 & H6 & Hrun).
  apply bind_Ok in Hrun as (df8 & H7 & Hrun).
  apply bind_Ok in Hrun as (df8' & H8 & Hrun).
  apply bind_Ok in Hrun as (df9' & H9 & Hrun). injection Hrun as <-.
  eapply shrinks_trans; [eapply split_shrinks; [exact H4|..]; by apply Hl|].
  eapply shrinks_trans; [eapply duration_shrinks; [exact H5|..]; by apply Hl|].
  eapply shrinks_trans; [eapply privileges_shrinks; [exact H6|..]; by apply Hl|].
  eapply shrinks_trans; [eapply colors_shrinks; [exact H7|..]; by apply Hl|].
  eapply shrinks_trans; [eapply brands_shrinks; [exact H8|..]; by apply Hl|].
  eapply region_shrinks; [exact H9|..]; by apply Hl.
Qed.

End StepFacts.

(** ** The experience bounds (adjust_invalid_driving_experience, clean) *)

Lemma adjusted_row_bounds (r r' : gmap string cell) :
  adjusted_row r = Some r' →
  r'.["Age"] = r.["Age"]
  ∧ ∃ d, r'.["Driving_experience"] = Num d ∧ 0 ≤ d
         ∧ (r.["Age"] = NaN ∨ ∃ a, r.["Age"] = Num a ∧ d ≤ a - 18).
Proof.
  unfold adjusted_row.
  destruct (r.["Age"]) as [|a| |] eqn:Hra; try done;
    destruct (r.["Driving_experience"]) as [|d| |] eqn:Hrd; try done;
    case_decide; try done; intros [= <-].
  - rewrite !getitem_delete_ne by done. rewrite Hra, Hrd.
    split; [done|]. exists d. auto.
  - rewrite getitem_insert_ne, getitem_insert_eq, getitem_delete_ne by done.
    split; [done|]. exists (Z.min d (a - 18)).
    split; [done|]. split; [lia|]. right. exists a. split; [done|lia].
Qed.


Lemma adjust_columns df out :
  adjust_invalid_driving_experience df = Ok out →
  "Age" ∈ columns out ∧ "Driving_experience" ∈ columns out.
Proof.
  unfold adjust_invalid_driving_experience. intros Hrun.
  apply bind_Ok in Hrun as (_ & Ha%require_Ok & Hrun).
  apply bind_Ok in Hrun as (_ & He%require_Ok & Hrun).
  destruct (negb _) in Hrun; [done|].
  destruct (negb _) in Hrun; [done|].
  apply bind_Ok in Hrun as (mid & Hdrop & Hrun).
  injection Hrun as <-. apply drop_columns_Ok in Hdrop as [Hcols _].
  cbn [columns select assign] in *. rewrite Hcols.
  split; apply list_elem_of_filter; (split; [evaluate|]);
    apply elem_of_add_label; by right.
Qed.


Section Pipeline.

Context `{PandasLib}.

(** [clean] as the composition of the nine steps of [pipeline]. *)
Lemma clean_runs_pipeline df :
  clean df = foldl (fun acc step => acc ≫= step) (Ok df) pipeline.
Proof.
  unfold clean, pipeline. cbn [foldl mbind result_bind].
  destruct (drop_features df) as [df1|]; cbn [mbind result_bind]; [|done].
  destruct (adjust_invalid_driving_experience df1) as [df2|]; cbn [mbind result_bind]; [|done].
  destruct (clean_vehicle_and_insurance_info df2) as [df3|]; cbn [mbind result_bind]; [|done].
  destruct (split_insurance_dates df3) as [df4|]; cbn [mbind result_bind]; [|done].
  destruct (calculate_insurance_duration df4) as [df5|]; cbn [mbind result_bind]; [|done].
  destruct (fill_missing_privileges df5) as [df6|]; cbn [mbind result_bind]; [|done].
  destruct (standardize_colors df6) as [df7|]; cbn [mbind result_bind]; [|done].
  destruct (standardize_brands_and_models df7) as [df8|]; cbn [mbind result_bind]; [|done].
  destruct (map_city_to_region df8) as [df9|]; cbn [mbind result_bind]; [|done].
  done.
Qed.


End Pipeline.

Section Experience.

Context `{PandasLib}.


(** C9, as amended.  The step removes every row whose Driving_experience
    is missing: every row it keeps has a known experience, which is not
    negative.  A row whose Age is missing is not caught by the first filter
    and gets no adjustment either: the rows without an age that the step
    returns are exactly the rows without an age of the input whose
    experience is known and at least 0, in their order and as they were. *)
Theorem adjust_missing_values df out :
  adjust_invalid_driving_experience df = Ok out →
  (∀ r, r ∈ rows out → ∃ d, r.["Driving_experience"] = Num d ∧ 0 ≤ d)
  ∧ filter (fun r : gmap string cell => r.["Age"] = NaN) (rows out)
    = delete "Age_gap"
        <$> filter (fun r : gmap string cell =>
                      r.["Age"] = NaN
                      ∧ nonneg r.["Driving_experience"] = true)
              (rows df).
Proof.
  intros Hrows%adjust_rows_code. rewrite Hrows.
  generalize (both_int64 df). intros ints. split.
  - intros r Hr. apply list_elem_of_omap in Hr as (r1 & _ & Hadj).
    by eapply adjust_row_nonneg.
  - clear Hrows. induction (rows df) as [|r l IH]; [done|].
    cbn [omap list_omap]. rewrite (filter_cons _ r).
    destruct (decide (r.["Age"] = NaN)) as [Ha|Ha].
    + rewrite adjust_row_without_age by done.
      assert (Hge : ge r.["Driving_experience"] (Num 0)
                    = nonneg r.["Driving_experience"]).
      { destruct (r.["Driving_experience"]); try done. apply Z.geb_leb. }
      rewrite Hge. destruct (nonneg r.["Driving_experience"]).
      * rewrite decide_True by done. cbn [option_bind mbind].
        rewrite filter_cons, decide_True, fmap_cons, IH; [done|].
        by rewrite getitem_delete_ne.
      * rewrite decide_False by (by intros [_ ?]). exact IH.
    + rewrite decide_False by (by intros [? _]).
      destruct (adjust_row ints r) as [r'|] eqn:Hadj; [|exact IH].
      cbn [option_bind mbind]. rewrite filter_cons, decide_False; [exact IH|].
      by rewrite (adjust_row_age _ _ _ Hadj).
Qed.

End Experience.



(** C9, as stated, fails on a row whose Age alone is missing. *)
Lemma adjust_keeps_row_without_age : ¬ missing_rows_removed no_age.
Proof.
  intros Hclaim.
  assert (Hrun : adjust_invalid_driving_experience no_age = Ok no_age)
    by (vm_compute; reflexivity).
  specialize (Hclaim _ Hrun). simpl in Hclaim.
  apply Forall_cons in Hclaim as [[Hage _] _]. by apply Hage.
Qed.

Lemma adjust_missing_values_witness :
  ∃ out, adjust_invalid_driving_experience missing_values = Ok out
         ∧ (∀ r, r ∈ rows out → ∃ d, r.["Driving_experience"] = Num d ∧ 0 ≤ d)
         ∧ filter (fun r : gmap string cell => r.["Age"] = NaN) (rows out)
           = [ {[ "Age" := NaN; "Driving_experience" := Num 5 ]} ].
Proof.
  assert (Hrun : ∃ out, adjust_invalid_driving_experience missing_values
                        = Ok out)
    by (eexists; vm_compute; reflexivity).
  destruct Hrun as [out Hrun]. exists out. split; [exact Hrun|].
  destruct (adjust_missing_values missing_values out Hrun) as [Hknown Hkept].
  split; [exact Hknown|]. rewrite Hkept. vm_compute. reflexivity.
Defined.

(** ** Vehicle types *)

Lemma map_dict_vehicle c :
  map_dict vehicle_mapping c = NaN
  ∨ map_dict vehicle_mapping c ∈ canonical_vehicle_types.
Proof.
  destruct c as [|z|s|d]; try by left. unfold map_dict.
  destruct (vehicle_mapping !! s) as [v|] eqn:Hv; [|by left]. right.
  apply elem_of_list_to_map_2 in Hv. cbn [from_option].
  repeat (apply elem_of_cons in Hv as [[= ? ?]|Hv]; [subst; evaluate|]).
  by apply elem_of_nil in Hv.
Qed.

Section VehicleTypes.

Context `{PandasLib}.

Lemma clean_vehicle_types df df' :
  clean_vehicle_and_insurance_info df = Ok df' →
  ∀ r, r ∈ rows df' →
       r.["Vehicle_type"] = NaN
       ∨ r.["Vehicle_type"] ∈ canonical_vehicle_types.
Proof.
  unfold clean_vehicle_and_insurance_info. intros Hrun.
  apply bind_Ok in Hrun as (mid & Hmap & Hrun).
  unfold filter_and_map_vehicle_types in Hmap.
  apply bind_Ok in Hmap as (df1 & Hstrip & Hmap).
  apply bind_Ok in Hmap as (_ & _ & Hmap). injection Hmap as <-.
  unfold calculate_car_age in Hrun.
  apply bind_Ok in Hrun as (_ & _ & Hrun).
  match type of Hrun with
  | context [setitem _ _ ?mapped] =>
      assert (Hkeep : shrinks ["Vehicle_type"] mapped df') by shrink
  end.
  intros r Hr. destruct Hkeep as [_ Hkeep].
  destruct (Hkeep r Hr) as (r0 & Hr0 & Hsame).
  apply Forall_cons in Hsame as [-> _].
  cbn [rows assign] in Hr0.
  apply list_elem_of_fmap in Hr0 as (r1 & -> & _).
  rewrite getitem_insert_eq. apply map_dict_vehicle.
Qed.

(** C2, as amended.  In the table returned by [clean], the Vehicle_type of
    every row is one of the four canonical categories or is missing. *)
Theorem clean_vehicle_types_canonical_or_missing df out :
  clean df = Ok out →
  ∀ r, r ∈ rows out →
       r.["Vehicle_type"] = NaN
       ∨ r.["Vehicle_type"] ∈ canonical_vehicle_types.
Proof.
  unfold clean. intros Hrun.
  apply bind_Ok in Hrun as (df1 & H1 & Hrun).
  apply bind_Ok in Hrun as (df2 & H2 & Hrun).
  apply bind_Ok in Hrun as (df3 & H3 & Hrun).
  assert (Hkeep : shrinks ["Vehicle_type"] df3 out).
  { eapply late_steps_shrink; [|exact Hrun].
    intros l Hl.
    repeat (apply elem_of_cons in Hl as [->|Hl]; [evaluate|]).
    by apply elem_of_nil in Hl. }
  intros r Hr. destruct Hkeep as [_ Hkeep].
  destruct (Hkeep r Hr) as (r3 & Hr3 & Hsame).
  apply Forall_cons in Hsame as [-> _].
  by eapply clean_vehicle_types.
Qed.

End VehicleTypes.

(** ** Row counts *)

Section RowCounts.

Context `{PandasLib}.

(** C6.  None of the nine steps that [clean] runs, in the order of
    [pipeline] (see [clean_runs_pipeline]), returns a table with more rows
    than it was given. *)
Theorem row_count_never_grows step df df' :
  step ∈ pipeline → step df = Ok df' → (nrows df' ≤ nrows df)%nat.
Proof.
  intros Hstep Hrun. unfold pipeline in Hstep.
  assert (Hno : ∀ l : string, l ∉ @nil string).
  { intros l Hl. by apply elem_of_nil in Hl. }
  repeat (apply elem_of_cons in Hstep as [->|Hstep]).
  - by apply drop_features_shrinks in Hrun as [Hn _].
  - by apply adjust_shrinks in Hrun as [Hn _].
  - eapply (clean_vehicle_shrinks []) in Hrun as [Hn _]; done.
  - eapply (split_shrinks []) in Hrun as [Hn _]; done.
  - eapply (duration_shrinks []) in Hrun as [Hn _]; done.
  - eapply (privileges_shrinks []) in Hrun as [Hn _]; done.
  - eapply (colors_shrinks []) in Hrun as [Hn _]; done.
  - eapply (brands_shrinks []) in Hrun as [Hn _]; done.
  - eapply (region_shrinks []) in Hrun as [Hn _]; done.
  - by apply elem_of_nil in Hstep.
Qed.

End RowCounts.

(** C2, as stated, fails on a vehicle type outside the mapping: the row is
    kept and its Vehicle_type is missing. *)
Lemma clean_keeps_unmapped_vehicle_type : ¬ vehicle_types_canonical tram.
Proof.
  intros Hclaim.
  assert (Hrun : ∃ out, clean tram = Ok out
                        ∧ ∃ r, rows out = [r] ∧ r.["Vehicle_type"] = NaN).
  { eexists. split; [vm_compute; reflexivity|].
    eexists. split; [reflexivity|]. vm_compute. reflexivity. }
  destruct Hrun as (out & Hrun & r & Hrows & Hvt).
  specialize (Hclaim out Hrun). clear Hrun. rewrite Hrows in Hclaim.
  apply Forall_cons in Hclaim as [Hin _]. rewrite Hvt in Hin.
  revert Hin. evaluate.
Qed.

Lemma clean_vehicle_types_witness :
  ∃ out, clean three_policies = Ok out
         ∧ ∀ r, r ∈ rows out →
                r.["Vehicle_type"] = NaN
                ∨ r.["Vehicle_type"] ∈ canonical_vehicle_types.
Proof.
  eexists. split; [vm_compute; reflexivity|].
  apply (clean_vehicle_types_canonical_or_missing three_policies).
  vm_compute. reflexivity.
Defined.

Lemma row_count_never_grows_witness :
  ∃ out, adjust_invalid_driving_experience three_drivers = Ok out
         ∧ (nrows out ≤ nrows three_drivers)%nat.
Proof.
  eexists. split; [vm_compute; reflexivity|].
  apply (row_count_never_grows adjust_invalid_driving_experience).
  - unfold pipeline. right. left.
  - vm_compute. reflexivity.
Defined.

(** ** Colours *)

(** C10.  With a Color column the step always completes, keeps every row in
    place and leaves a string in every Color cell; a missing Color is first
    turned into the text "nan", which is not a key of the table, so the
    cell becomes "Прочие". *)
Theorem missing_color_becomes_other df :
  "Color" ∈ columns df →
  ∃ out,
    standardize_colors df = Ok out
    ∧ nrows out = nrows df
    ∧ (∀ i r, rows df !! i = Some r →
              ∃ r', rows out !! i = Some r'
                    ∧ r' !! "Color" = Some (standardize_color r.["Color"])
                    ∧ (r.["Color"] = NaN → r' !! "Color" = Some (Str "Прочие")))
    ∧ astype_str NaN = "nan"
    ∧ color_mapping !! PyStr.lower (PyStr.strip "nan") = None.
Proof.
  intros Hcol. unfold standardize_colors. rewrite decide_True by done.
  eexists. split; [reflexivity|]. split; [|split; [|split]].
  - unfold nrows, assign. cbn [rows]. by rewrite length_fmap.
  - intros i r Hi. cbn [rows assign]. rewrite list_lookup_fmap, Hi.
    eexists. split; [reflexivity|]. rewrite lookup_insert_eq. split; [done|].
    intros ->. vm_compute. reflexivity.
  - reflexivity.
  - vm_compute. reflexivity.
Qed.

Lemma missing_color_becomes_other_witness :
  ∃ out, standardize_colors colors_example = Ok out
         ∧ ∃ r', rows out !! 1%nat = Some r'
                 ∧ r' !! "Color" = Some (Str "Прочие").
Proof.
  assert (Hcol : "Color" ∈ columns colors_example) by (vm_compute; left).
  destruct (missing_color_becomes_other colors_example Hcol)
    as (out & Hrun & _ & Hrows & _).
  exists out. split; [exact Hrun|].
  destruct (Hrows 1%nat {[ "Color" := NaN ]} eq_refl) as (r' & Hr' & _ & Hnan).
  exists r'. split; [exact Hr'|]. apply Hnan. vm_compute. reflexivity.
Defined.

(** ** Car age *)

Section CarAge.

Context `{PandasLib}.

(** C5.  After [clean_vehicle_and_insurance_info] every row that is left
    (the rows of the stripped table that are not trailers) has
    [Car_age = 2025 - year] where [to_datetime] gave its
    Year_of_manufacture a timestamp, and a missing Car_age where it gave
    NaT; the Year_of_manufacture column is gone from the table and from
    every row. *)
Theorem car_age_from_year_of_manufacture df out :
  clean_vehicle_and_insurance_info df = Ok out →
  ∃ mid,
    filter_and_map_vehicle_types df = Ok mid
    ∧ nrows out = nrows mid
    ∧ ("Year_of_manufacture" ∉ columns out)
    ∧ ∀ i r, rows mid !! i = Some r →
        ∃ r' parsed,
          rows out !! i = Some r'
          ∧ to_datetime (series "Year_of_manufacture" mid) !! i = Some parsed
          ∧ r' !! "Year_of_manufacture" = None
          ∧ r' !! "Car_age"
            = Some (match parsed with
                    | Some d => Num (2025 - year d)
                    | None => NaN
                    end).
Proof.
  unfold clean_vehicle_and_insurance_info. intros Hrun.
  apply bind_Ok in Hrun as (mid & Hmid & Hrun). exists mid.
  split; [done|]. unfold calculate_car_age in Hrun.
  apply bind_Ok in Hrun as (_ & _ & Hrun).
  apply drop_columns_Ok in Hrun as [Hcols Hrows].
  cbn [rows columns assign setitem] in Hcols, Hrows.
  pose proof (to_datetime_length (series "Year_of_manufacture" mid)) as Hlen.
  unfold series in Hlen at 2. rewrite length_fmap in Hlen.
  split; [|split].
  - unfold nrows. rewrite Hrows, !length_fmap, length_zip_with, length_fmap.
    lia.
  - rewrite Hcols. intros Hin. apply list_elem_of_filter in Hin as [Hin _].
    apply Hin. left.
  - intros i r Hi.
    destruct (lookup_lt_is_Some_2
                (to_datetime (series "Year_of_manufacture" mid)) i)
      as [parsed Hp].
    { rewrite Hlen. by eapply lookup_lt_Some. }
    eexists _, parsed. rewrite Hrows.
    rewrite !list_lookup_fmap, lookup_zip_with, Hi. cbn [mbind option_bind].
    rewrite list_lookup_fmap, Hp. cbn [fmap option_fmap option_map mbind option_bind].
    split; [reflexivity|]. split; [done|]. split.
    + cbn [foldr]. apply lookup_delete_eq.
    + cbn [foldr]. rewrite lookup_delete_ne, lookup_insert_eq by done.
      rewrite getitem_insert_eq. by destruct parsed.
Qed.

End CarAge.

Lemma car_age_witness :
  ∃ out, clean_vehicle_and_insurance_info one_truck = Ok out
         ∧ "Year_of_manufacture" ∉ columns out.
Proof.
  eexists. split; [vm_compute; reflexivity|].
  match goal with
  | |- _ ∉ columns ?o =>
      destruct (car_age_from_year_of_manufacture one_truck o)
        as (mid & _ & _ & Hcol & _); [vm_compute; reflexivity|exact Hcol]
  end.
Defined.

(** ** Brands and models *)

Lemma elem_of_unique v col : v ∈ unique col ↔ v ∈ col ∧ v ≠ NaN.
Proof.
  unfold unique.
  rewrite elem_of_reverse, elem_of_remove_dups, elem_of_reverse.
  rewrite list_elem_of_filter. tauto.
Qed.

Lemma NoDup_unique col : NoDup (unique col).
Proof.
  unfold unique. rewrite reverse_Permutation. apply NoDup_remove_dups.
Qed.

Lemma frequency_count v col : frequency v col = count v col.
Proof.
  unfold count. induction col as [|c col IH]; [done|].
  cbn [frequency]. rewrite filter_cons, IH. by case_decide.
Qed.

Lemma replace_value_renamed old new c :
  replace_value old new c = renamed old new c.
Proof.
  unfold replace_value. destruct c as [|z|s|d]; try by case_decide.
  cbn [renamed]. destruct (String.eqb_spec s old) as [->|Hne].
  - by rewrite decide_True.
  - rewrite decide_False; [done|]. by intros [= ?].
Qed.

Lemma stable_sort_desc_sorted s :
  StronglySorted (fun a b : cell * nat => (b.2 ≤ a.2)%nat) s →
  stable_sort_desc s = s.
Proof.
  induction 1 as [|x l Hl IH Hx]; [done|]. cbn [stable_sort_desc foldr].
  fold (stable_sort_desc l). rewrite IH. destruct l as [|y l']; [done|].
  cbn [insert_desc]. apply Forall_cons in Hx as [Hxy _].
  rewrite decide_False by lia. done.
Qed.

Section Brands.

Context `{PandasLib}.

Lemma top_values_take n col :
  top_values n col
  = (take n (sort_values ((fun v => (v, count v col)) <$> unique col))).*1.
Proof.
  unfold top_values, nlargest, value_counts.
  by rewrite stable_sort_desc_sorted by apply sort_values_sorted.
Qed.

Lemma top_values_most_frequent n col :
  most_frequent n col (top_values n col).
Proof.
  rewrite top_values_take.
  set (counts := (fun v => (v, count v col)) <$> unique col).
  pose proof (sort_values_perm counts) as Hperm.
  pose proof (sort_values_sorted counts) as Hsorted.
  assert (Hfst : (sort_values counts).*1 ≡ₚ unique col).
  { rewrite Hperm. unfold counts. rewrite <- list_fmap_compose.
    rewrite (list_fmap_ext _ id (unique col)) by done.
    by rewrite list_fmap_id. }
  assert (Hsnd : ∀ p, p ∈ sort_values counts → p.2 = count p.1 col).
  { intros p Hp. rewrite Hperm in Hp. unfold counts in Hp.
    by apply list_elem_of_fmap in Hp as (v & -> & _). }
  rewrite <- (take_drop n (sort_values counts)) in Hsorted, Hfst.
  rewrite fmap_app in Hfst.
  assert (Hnd : NoDup ((take n (sort_values counts)).*1
                       ++ (drop n (sort_values counts)).*1)).
  { rewrite Hfst. apply NoDup_unique. }
  apply NoDup_app in Hnd as (Hnd & Hdisj & _).
  assert (Hlen : length (take n (sort_values counts)).*1
                 = (n `min` length (unique col))%nat).
  { rewrite length_fmap, length_take.
    rewrite <- (length_fmap fst (sort_values counts)).
    rewrite <- (take_drop n (sort_values counts)) at 1.
    rewrite fmap_app, Hfst. done. }
  assert (Htop : ∀ v, v ∈ (take n (sort_values counts)).*1 → v ∈ unique col).
  { intros v Hv. rewrite <- Hfst. apply elem_of_app. by left. }
  split; [done|]. split; [lia|]. split; [|split].
  - intros v Hv. apply Htop, elem_of_unique in Hv as [? ?]. done.
  - destruct (decide (n ≤ length (unique col))%nat) as [Hmany|Hfew];
      [left; lia|right].
    intros w Hw Hwn.
    assert (Hsub : (take n (sort_values counts)).*1 ⊆+ unique col)
      by by apply NoDup_submseteq.
    apply submseteq_length_Permutation in Hsub; [|lia].
    rewrite Hsub. by apply elem_of_unique.
  - intros v w Hv Hw Hwn Hout. rewrite !frequency_count.
    apply list_elem_of_fmap in Hv as ([v' c] & -> & Hv). cbn [fst] in *.
    assert (Hwu : w ∈ unique col) by by apply elem_of_unique.
    rewrite <- Hfst in Hwu. apply elem_of_app in Hwu as [Hin|Hin]; [done|].
    apply list_elem_of_fmap in Hin as ([w' cw] & -> & Hin). cbn [fst] in *.
    pose proof (StronglySorted_app_1_elem_of _ _ _ _ _ Hsorted Hv Hin) as Hle.
    cbn [snd] in Hle.
    assert (Hc : c = count v' col).
    { apply (Hsnd (v', c)). rewrite <- (take_drop n (sort_values counts)).
      apply elem_of_app. by left. }
    assert (Hcw : cw = count w' col).
    { apply (Hsnd (w', cw)). rewrite <- (take_drop n (sort_values counts)).
      apply elem_of_app. by right. }
    by rewrite <- Hc, <- Hcw.
Qed.

Lemma collapse_rows label old new n df :
  label ∈ columns df →
  columns (collapse label old new n df) = columns df
  ∧ rows (collapse label old new n df)
    = (fun r : gmap string cell =>
         <[label :=
             keep_top (top_values n (replace_value old new <$> series label df))
               (replace_value old new r.[label])]> r) <$> rows df.
Proof.
  intros Hl. unfold collapse. rewrite decide_True by done.
  cbn [rows columns assign]. split.
  - assert (Hadd : add_label label (columns df) = columns df).
    { unfold add_label. by rewrite decide_True. }
    by rewrite !Hadd.
  - unfold series. cbn [rows assign].
    rewrite <- !list_fmap_compose. apply list_fmap_ext. intros i r _.
    cbn. rewrite getitem_insert_eq, insert_insert_eq. do 3 f_equal.
    apply list_fmap_ext. intros j r' _. cbn. by rewrite getitem_insert_eq.
Qed.

Lemma collapse_keeps label old new n df :
  label ∈ columns df →
  keeps_most_frequent label old new n df (collapse label old new n df).
Proof.
  intros Hl. split; [apply top_values_most_frequent|].
  destruct (collapse_rows label old new n df Hl) as [_ Hrows].
  assert (Hcol : replace_value old new <$> series label df
                 = renamed old new <$> series label df).
  { apply list_fmap_ext. intros i c _. apply replace_value_renamed. }
  rewrite Hcol in Hrows. split.
  - unfold nrows. by rewrite Hrows, length_fmap.
  - intros i r Hi. rewrite Hrows, list_lookup_fmap, Hi.
    eexists. split; [reflexivity|].
    by rewrite getitem_insert_eq, replace_value_renamed.
Qed.

Lemma collapse_nrows label old new n df :
  nrows (collapse label old new n df) = nrows df.
Proof.
  unfold collapse. case_decide; [|done].
  unfold nrows. cbn [rows assign]. by rewrite !length_fmap.
Qed.

Lemma collapse_other label old new n df k :
  k ≠ label →
  series k (collapse label old new n df) = series k df.
Proof.
  intros Hk. unfold collapse. case_decide; [|done].
  unfold series. cbn [rows assign]. rewrite <- !list_fmap_compose.
  apply list_fmap_ext. intros i r _. cbn.
  by rewrite !getitem_insert_ne by done.
Qed.

(** C8.  The step always completes and keeps every row in place.  With a
    Brand column, every row keeps its Brand after the renaming of 'Лада'
    to 'Lada' ([renamed]) if that value is among the 37 most frequent
    renamed values, and gets 'Other' if not; with a Model column, the same
    holds for the 50 most frequent values after '.' is replaced by
    'Unknown'.  The kept values are [top_values] of the renamed column, a
    function of the column: distinct values of the column, 37 (50) of them
    or all there are, none occurring less often than a value left out
    ([most_frequent], counted by [frequency]). *)
Theorem top_brands_and_models_kept df :
  ∃ out,
    standardize_brands_and_models df = Ok out
    ∧ ("Brand" ∈ columns df →
       keeps_most_frequent "Brand" "Лада" "Lada" 37 df out)
    ∧ ("Model" ∈ columns df →
       keeps_most_frequent "Model" "." "Unknown" 50 df out).
Proof.
  eexists. split; [reflexivity|]. split.
  - intros Hb.
    destruct (collapse_keeps "Brand" "Лада" "Lada" 37 df Hb)
      as (Htop & _ & Hrows).
    split; [exact Htop|]. split; [by rewrite !collapse_nrows|].
    intros i r Hi.
    destruct (Hrows i r Hi) as (r1 & Hr1 & Hv).
    set (df1 := collapse "Brand" "Лада" "Lada" 37 df) in *.
    assert (Hs : series "Brand" (collapse "Model" "." "Unknown" 50 df1)
                 = series "Brand" df1) by by apply collapse_other.
    set (df2 := collapse "Model" "." "Unknown" 50 df1) in *.
    unfold series in Hs. apply (f_equal (fun l => l !! i)) in Hs.
    rewrite !list_lookup_fmap, Hr1 in Hs.
    destruct (rows df2 !! i) as [r2|]; [|done].
    exists r2. split; [done|]. injection Hs as ->. exact Hv.
  - intros Hm.
    set (df1 := collapse "Brand" "Лада" "Lada" 37 df).
    assert (Hm1 : "Model" ∈ columns df1).
    { unfold df1, collapse. case_decide; [|done]. cbn [columns assign].
      apply elem_of_add_label. right. apply elem_of_add_label. by right. }
    destruct (collapse_keeps "Model" "." "Unknown" 50 df1 Hm1)
      as (Htop & _ & Hrows).
    assert (Hs : series "Model" df1 = series "Model" df)
      by by apply collapse_other.
    unfold keeps_most_frequent. rewrite <- Hs. split; [exact Htop|].
    split; [unfold df1; by rewrite !collapse_nrows|].
    intros i r Hi.
    assert (Hi1 : ∃ r1, rows df1 !! i = Some r1 ∧ r1.["Model"] = r.["Model"]).
    { unfold series in Hs. apply (f_equal (fun l => l !! i)) in Hs.
      rewrite !list_lookup_fmap, Hi in Hs.
      destruct (rows df1 !! i) as [r1|]; [|done].
      exists r1. split; [done|]. by injection Hs. }
    destruct Hi1 as (r1 & Hr1 & Heq).
    destruct (Hrows i r1 Hr1) as (r' & Hr' & Hv).
    exists r'. split; [done|]. by rewrite <- Heq.
Qed.

End Brands.

Lemma top_brands_kept_witness :
  ∃ out, standardize_brands_and_models brands_example = Ok out
         ∧ keeps_most_frequent "Brand" "Лада" "Lada" 37 brands_example out
         ∧ series "Brand" out
           = [Str "Lada"; Str "Lada"; Str "Toyota"; Str "Other"].
Proof.
  destruct (top_brands_and_models_kept brands_example) as (out & Hrun & Hb & _).
  exists out. split; [exact Hrun|]. split; [apply Hb; vm_compute; left|].
  injection Hrun as <-. vm_compute. reflexivity.
Defined.

(** ** Whole months between two dates *)

Lemma is_date_spec d :
  is_date d = true →
  1 ≤ month d ≤ 12 ∧ 1 ≤ day d ≤ days_in_month (year d) (month d).
Proof. unfold is_date. rewrite !andb_true_iff, !Z.leb_le. lia. Qed.

Lemma add_months_at d n Y M :
  1 ≤ M ≤ 12 → month_index d + n = Y * 12 + (M - 1) →
  add_months d n = mkdate Y M (Z.min (days_in_month Y M) (day d)).
Proof.
  intros HM Ht. unfold add_months. cbv zeta. rewrite Ht.
  assert (Hq : (Y * 12 + (M - 1)) / 12 = Y).
  { symmetry. apply (Z.div_unique _ 12 Y (M - 1)); lia. }
  assert (Hr : (Y * 12 + (M - 1)) mod 12 = M - 1).
  { symmetry. apply (Z.mod_unique _ 12 Y (M - 1)); lia. }
  rewrite Hq, Hr. by replace (M - 1 + 1) with M by lia.
Qed.

Lemma month_index_add_months d n :
  month_index (add_months d n) = month_index d + n
  ∧ 1 ≤ month (add_months d n) ≤ 12.
Proof.
  unfold add_months, month_index. cbn [year month].
  pose proof (Z.div_mod (year d * 12 + (month d - 1) + n) 12 ltac:(lia)).
  pose proof (Z.mod_pos_bound (year d * 12 + (month d - 1) + n) 12 ltac:(lia)).
  lia.
Qed.

Lemma monthrange_Ok y m :
  1 ≤ m ≤ 12 → monthrange y m = Ok (days_in_month y m).
Proof.
  intros Hm. unfold monthrange.
  destruct (Z.leb_spec 1 m), (Z.leb_spec m 12); try lia. done.
Qed.

Lemma radd_finish d n Y M :
  1 ≤ M ≤ 12 → month_index d + n = Y * 12 + (M - 1) →
  (last ← monthrange Y M; Ok (mkdate Y M (Z.min last (day d))))
  = Ok (add_months d n).
Proof.
  intros HM Ht. rewrite monthrange_Ok by done. cbn [mbind result_bind].
  by rewrite (add_months_at d n Y M).
Qed.

(** [__radd__] with the delta that [_set_months n] stores is the shift by
    [n] months; its assertion never fails. *)
Lemma radd_set_months d n :
  1 ≤ month d ≤ 12 → radd (_set_months n) d = Ok (add_months d n).
Proof.
  intros Hm. unfold radd, _set_months, month_index.
  destruct (Z.ltb_spec 11 (Z.abs n)) as [Hbig|Hsmall]; cbn [years months].
  - pose proof (Z.div_mod (n * Z.sgn n) 12 ltac:(lia)) as Hdm.
    pose proof (Z.mod_pos_bound (n * Z.sgn n) 12 ltac:(lia)) as Hb.
    set (q := n * Z.sgn n / 12) in *. set (rm := (n * Z.sgn n) mod 12) in *.
    assert (Hs : Z.sgn n = 1 ∨ Z.sgn n = -1) by lia.
    destruct (Z.eqb_spec (rm * Z.sgn n) 0) as [H0|H0]; cbn [mbind result_bind].
    { apply radd_finish; [done|]. unfold month_index. nia. }
    replace (Z.abs (rm * Z.sgn n)) with rm by nia.
    destruct (Z.leb_spec 1 rm); [|nia].
    destruct (Z.leb_spec rm 12); [|lia]. cbn [andb negb].
    destruct (Z.ltb_spec 12 (month d + rm * Z.sgn n)); cbn [mbind result_bind];
      [apply radd_finish; unfold month_index; nia|].
    destruct (Z.ltb_spec (month d + rm * Z.sgn n) 1); cbn [mbind result_bind];
      apply radd_finish; unfold month_index; nia.
  - destruct (Z.eqb_spec n 0) as [->|H0]; cbn [mbind result_bind].
    { apply radd_finish; [done|]. unfold month_index. lia. }
    destruct (Z.leb_spec 1 (Z.abs n)); [|lia].
    destruct (Z.leb_spec (Z.abs n) 12); [|lia]. cbn [andb negb].
    destruct (Z.ltb_spec 12 (month d + n)); cbn [mbind result_bind];
      [apply radd_finish; unfold month_index; lia|].
    destruct (Z.ltb_spec (month d + n) 1); cbn [mbind result_bind];
      apply radd_finish; unfold month_index; lia.
Qed.

Lemma set_months_total n :
  let rd := _set_months n in
  years rd * 12 + months rd = n
  ∧ (0 ≤ n → 0 ≤ years rd ∧ 0 ≤ months rd ≤ 11)
  ∧ (n ≤ 0 → years rd ≤ 0 ∧ -11 ≤ months rd ≤ 0).
Proof.
  unfold _set_months.
  destruct (Z.ltb_spec 11 (Z.abs n)) as [Hbig|Hsmall]; cbn [years months].
  - pose proof (Z.div_mod (n * Z.sgn n) 12 ltac:(lia)) as Hdm.
    pose proof (Z.mod_pos_bound (n * Z.sgn n) 12 ltac:(lia)) as Hb.
    set (q := n * Z.sgn n / 12) in *. set (rm := (n * Z.sgn n) mod 12) in *.
    assert (Hs : (0 < n ∧ Z.sgn n = 1) ∨ (n < 0 ∧ Z.sgn n = -1)) by lia.
    destruct Hs as [[Hn ->]|[Hn ->]]; lia.
  - lia.
Qed.

(** Dates compare by the month they lie in, then by the day. *)
Lemma date_ltb_index a b :
  1 ≤ month a ≤ 12 → 1 ≤ month b ≤ 12 →
  date_ltb a b = true
  ↔ month_index a < month_index b
    ∨ (month_index a = month_index b ∧ day a < day b).
Proof.
  intros Ha Hb. unfold date_ltb, month_index.
  rewrite !orb_true_iff, !andb_true_iff, !orb_true_iff, !andb_true_iff.
  rewrite !Z.ltb_lt, !Z.eqb_eq. lia.
Qed.

Lemma date_ltb_false_index a b :
  1 ≤ month a ≤ 12 → 1 ≤ month b ≤ 12 →
  date_ltb a b = false
  ↔ month_index b < month_index a
    ∨ (month_index a = month_index b ∧ day b ≤ day a).
Proof.
  intros Ha Hb. rewrite <- not_true_iff_false, date_ltb_index by done. lia.
Qed.

Lemma add_months_0 d : is_date d = true → add_months d 0 = d.
Proof.
  intros [Hm Hd]%is_date_spec.
  rewrite (add_months_at d 0 (year d) (month d)) by (unfold month_index; lia).
  destruct d as [y m dd]. cbn in *. f_equal. lia.
Qed.

(** The constructor of [relativedelta] on two dates: it returns, within the
    loop bound, the delta of the whole months between them. *)
Lemma delta_of_dates_spec e s :
  is_date s = true → is_date e = true →
  ∃ n, delta_of_dates e s = Ok (_set_months n) ∧ whole_months s e n.
Proof.
  intros Hs He.
  pose proof (add_months_0 s Hs) as Hs0.
  apply is_date_spec in Hs as [Hsm Hsd]. apply is_date_spec in He as [Hem Hed].
  unfold delta_of_dates, whole_months.
  set (n0 := (year e - year s) * 12 + (month e - month s)).
  assert (Hn0 : n0 = month_index e - month_index s)
    by (unfold n0, month_index; lia).
  rewrite radd_set_months by done. cbn [mbind result_bind].
  destruct (month_index_add_months s n0) as [Hi0 Hm0].
  destruct (month_index_add_months s (n0 + 1)) as [Hi1 Hm1].
  destruct (month_index_add_months s (n0 + -1)) as [Hi2 Hm2].
  destruct (date_ltb e s) eqn:Hes; unfold loop_bound; cbn [overshoot].
  - apply date_ltb_index in Hes; [|done..].
    destruct (date_ltb (add_months s n0) e) eqn:Htest.
    + rewrite (radd_set_months s (n0 + 1)) by done. cbn [mbind result_bind].
      assert (Hstop : date_ltb (add_months s (n0 + 1)) e = false).
      { apply date_ltb_false_index; [done..|]. lia. }
      rewrite Hstop. cbn [mbind result_bind].
      exists (n0 + 1). split; [done|]. unfold date_leb. rewrite Hstop.
      replace (n0 + 1 - 1) with n0 by lia. split; [|done].
      apply date_ltb_index in Htest; [|done..].
      destruct (decide (n0 = 0)) as [Hz|Hz]; [|lia].
      rewrite Hz, Hs0 in Htest. lia.
    + cbn [mbind result_bind]. exists n0. split; [done|].
      unfold date_leb. rewrite Htest. split; [lia|]. split; [done|].
      apply date_ltb_index; [|done|].
      * replace (n0 - 1) with (n0 + -1) by lia. done.
      * replace (n0 - 1) with (n0 + -1) by lia. lia.
  - apply date_ltb_false_index in Hes; [|done..].
    destruct (date_ltb e (add_months s n0)) eqn:Htest.
    + rewrite (radd_set_months s (n0 + -1)) by done. cbn [mbind result_bind].
      assert (Hstop : date_ltb e (add_months s (n0 + -1)) = false).
      { apply date_ltb_false_index; [done..|]. lia. }
      rewrite Hstop. cbn [mbind result_bind].
      exists (n0 + -1). split; [done|]. unfold date_leb. rewrite Hstop.
      replace (n0 + -1 + 1) with n0 by lia. split; [|done].
      apply date_ltb_index in Htest; [|done..].
      destruct (decide (n0 = 0)) as [Hz|Hz]; [|lia].
      rewrite Hz, Hs0 in Htest. lia.
    + cbn [mbind result_bind]. exists n0. split; [done|].
      unfold date_leb. rewrite Htest. split; [lia|]. split; [done|].
      apply date_ltb_index; [done..|]. lia.
Qed.

(** A date that [strptime_dmy] returns is a date of the calendar. *)
Lemma strptime_dmy_is_date s d : strptime_dmy s = Some d → is_date d = true.
Proof.
  unfold strptime_dmy.
  destruct (PyStr.split "." s) as [|sd [|sm [|sy [|]]]]; try done.
  destruct (match_d sd) as [dd|]; [|done]. cbn [mbind option_bind].
  destruct (match_m sm) as [m|]; [|done]. cbn [mbind option_bind].
  destruct (match_Y sy) as [y|]; [|done]. cbn [mbind option_bind].
  destruct (1 <=? y); [|done]. cbn [andb].
  destruct (is_date _) eqn:Hd; [|done]. cbn [andb].
  destruct (in_ns_bounds _); [|done]. by intros [= <-].
Qed.

(** ** Insurance periods *)

Lemma split_length sep s :
  length (PyStr.split sep s) = S (occurrences sep s).
Proof.
  induction s as [|c s IH]; [done|]. cbn [PyStr.split occurrences].
  destruct (Ascii.eqb c sep); cbn [length]; [by rewrite IH|].
  destruct (PyStr.split sep s); [done|]. exact IH.
Qed.

Lemma max_list_le (l : list nat) (n : nat) :
  (foldr Nat.max 0 l ≤ n)%nat ↔ Forall (fun k => (k ≤ n)%nat) l.
Proof.
  induction l as [|k l IH]; cbn [foldr].
  - split; [constructor|lia].
  - rewrite Forall_cons, <- IH. lia.
Qed.

Lemma max_list_ge (l : list nat) (n : nat) :
  (0 < n)%nat →
  (n ≤ foldr Nat.max 0 l)%nat ↔ Exists (fun k => (n ≤ k)%nat) l.
Proof.
  intros Hn. induction l as [|k l IH]; cbn [foldr].
  - rewrite Exists_nil. lia.
  - rewrite Exists_cons, <- IH. lia.
Qed.

Lemma max_list_eq (l : list nat) (n : nat) :
  (0 < n)%nat →
  foldr Nat.max 0%nat l = n
  ↔ Forall (fun k => (k ≤ n)%nat) l ∧ Exists (fun k => k = n) l.
Proof.
  intros Hn. rewrite <- max_list_le. split.
  - intros Hmax. split; [lia|].
    assert (Hge : Exists (fun k => (n ≤ k)%nat) l) by (apply max_list_ge; lia).
    assert (Hle : Forall (fun k => (k ≤ n)%nat) l) by (apply max_list_le; lia).
    rewrite Exists_exists in *. destruct Hge as (k & Hk & Hnk). exists k.
    split; [done|]. rewrite Forall_forall in Hle. specialize (Hle k Hk). lia.
  - intros [Hle Hex].
    assert (Hge : (n ≤ foldr Nat.max 0 l)%nat).
    { apply max_list_ge; [done|]. eapply Exists_impl; [exact Hex|].
      intros k ->. done. }
    lia.
Qed.

Lemma lookup_deletes_ne labels k (r : gmap string cell) :
  k ∉ labels → foldr delete r labels !! k = r !! k.
Proof.
  induction labels as [|l labels IH]; [done|]. simpl. intros Hk.
  apply not_elem_of_cons in Hk as [Hne Hk].
  rewrite lookup_delete_ne by done. by apply IH.
Qed.

Lemma apply_rows_Ok f rs vs :
  apply_rows f rs = Ok vs →
  length vs = length rs
  ∧ ∀ i r, rs !! i = Some r → ∃ v, vs !! i = Some v ∧ f r = Ok v.
Proof.
  revert vs. induction rs as [|r rs IH]; intros vs; cbn [apply_rows].
  - intros [= <-]. split; [done|]. intros i r Hi. by destruct i.
  - intros Hrun. apply bind_Ok in Hrun as (v & Hv & Hrun).
    apply bind_Ok in Hrun as (vs' & Hvs & Hrun). injection Hrun as <-.
    destruct (IH vs' Hvs) as [Hlen Hrows]. split; [cbn; lia|].
    intros [|i] r' Hi; cbn in *.
    + injection Hi as <-. by exists v.
    + by apply Hrows.
Qed.


Lemma calculate_months_dates (r : gmap string cell) s e :
  r.["start_date"] = Date s → r.["end_date"] = Date e →
  ∀ v, calculate_months r = Ok v → months_between s e v.
Proof.
  intros Hs He v. unfold calculate_months. rewrite Hs, He.
  intros Hrun. apply bind_Ok in Hrun as ([y m] & Hrd & Hrun).
  injection Hrun as <-. cbn [years months]. exists y, m.
  split; [done|]. split; [f_equal; lia|]. intros Hds Hde.
  destruct (delta_of_dates_spec e s Hds Hde) as (n & Hn & Hwhole).
  cbn [relativedelta_of] in Hrd. rewrite Hn in Hrd.
  destruct (set_months_total n) as (Htot & Hpos & Hneg).
  injection Hrd as Hrd. rewrite Hrd in Htot, Hpos, Hneg.
  cbn [years months] in *. rewrite Htot. split; [done|].
  unfold whole_months in Hwhole. destruct (date_ltb e s).
  - apply Hneg. lia.
  - apply Hpos. lia.
Qed.


Lemma duration_needs_dates df out :
  calculate_insurance_duration df = Ok out →
  ∀ r, r ∈ rows df →
       ∃ s e, r.["start_date"] = Date s ∧ r.["end_date"] = Date e.
Proof.
  unfold calculate_insurance_duration. intros Hrun.
  destruct (rows df) as [|r0 rs] eqn:Hrows; [done|]. rewrite <- Hrows in *.
  apply bind_Ok in Hrun as (_ & _ & Hrun).
  apply bind_Ok in Hrun as (_ & _ & Hrun).
  apply bind_Ok in Hrun as (values & Hvalues & _).
  apply apply_rows_Ok in Hvalues as [_ Hvalues].
  intros r Hr. apply list_elem_of_lookup in Hr as [i Hi].
  destruct (Hvalues i r Hi) as (v & _ & Hv).
  unfold calculate_months, relativedelta_of in Hv.
  destruct (r.["end_date"]) as [|ze|se|e];
    destruct (r.["start_date"]) as [|zs|ss|s]; try done.
  by exists s, e.
Qed.

Lemma duration_rows df out :
  calculate_insurance_duration df = Ok out →
  nrows out = nrows df
  ∧ ∀ i r s e,
      rows df !! i = Some r →
      r.["start_date"] = Date s → r.["end_date"] = Date e →
      ∃ r' v, rows out !! i = Some r'
              ∧ r' !! "Insurance_months" = Some v
              ∧ months_between s e v.
Proof.
  unfold calculate_insurance_duration. intros Hrun.
  destruct (rows df) as [|r0 rs] eqn:Hrows; [done|]. rewrite <- Hrows in *.
  clear Hrows r0 rs.
  apply bind_Ok in Hrun as (_ & _ & Hrun).
  apply bind_Ok in Hrun as (_ & _ & Hrun).
  apply bind_Ok in Hrun as (values & Hvalues & Hrun).
  apply apply_rows_Ok in Hvalues as [Hlen Hvalues].
  apply drop_columns_Ok in Hrun as [_ Hout]. cbn [rows setitem] in Hout.
  split.
  - unfold nrows. rewrite Hout, length_fmap, length_zip_with. lia.
  - intros i r s e Hi Hs He. destruct (Hvalues i r Hi) as (v & Hv & Hcalc).
    eexists _, v. rewrite Hout, list_lookup_fmap, lookup_zip_with, Hi.
    cbn [mbind option_bind]. rewrite Hv.
    cbn [mbind option_bind fmap option_fmap option_map].
    split; [reflexivity|]. split.
    + rewrite lookup_deletes_ne by evaluate. apply lookup_insert_eq.
    + by eapply calculate_months_dates.
Qed.


Lemma to_datetime_dmy_date c :
  to_datetime_dmy c = NaN
  ∨ ∃ d, to_datetime_dmy c = Date d ∧ is_date d = true.
Proof.
  destruct c as [|z|s|d]; try by left. cbn [to_datetime_dmy].
  destruct (strptime_dmy s) as [d|] eqn:Hd; [|by left].
  right. exists d. split; [done|]. by eapply strptime_dmy_is_date.
Qed.

(** What [split_insurance_dates] returns when the split has two columns. *)
Lemma split_rows df :
  "Insurance_period" ∈ columns df →
  expand_width (str_split "-" <$> series "Insurance_period" df) = 2%nat →
  ∃ out,
    split_insurance_dates df = Ok out
    ∧ nrows out = nrows df
    ∧ Forall (fun l => l ∈ columns out)
        ["Insurance_period"; "start_date"; "end_date"]
    ∧ ∀ i r, rows df !! i = Some r →
        ∃ r', rows out !! i = Some r'
              ∧ r' !! "start_date"
                = Some (to_datetime_dmy
                          (default NaN
                             (str_split "-" r.["Insurance_period"] !! 0%nat)))
              ∧ r' !! "end_date"
                = Some (to_datetime_dmy
                          (default NaN
                             (str_split "-" r.["Insurance_period"] !! 1%nat)))
              ∧ ∀ k, k ≠ "start_date" → k ≠ "end_date" → r' !! k = r !! k.
Proof.
  intros Hcol Hw. unfold split_insurance_dates.
  rewrite require_elem by done. cbn [mbind result_bind].
  rewrite decide_True by done. eexists. split; [reflexivity|].
  unfold nrows. cbn [rows columns assign setitem]. split; [|split].
  - rewrite !length_fmap, !length_zip_with, !length_fmap.
    unfold series. rewrite !length_fmap. lia.
  - repeat constructor; rewrite !elem_of_add_label; auto.
  - intros i r Hi.
    assert (Hp : (str_split "-" <$> series "Insurance_period" df) !! i
                 = Some (str_split "-" r.["Insurance_period"])).
    { unfold series. by rewrite !list_lookup_fmap, Hi. }
    set (parts := str_split "-" <$> series "Insurance_period" df) in *.
    rewrite !list_lookup_fmap, !lookup_zip_with, Hi.
    cbn [mbind option_bind]. rewrite !list_lookup_fmap, Hp.
    cbn [mbind option_bind fmap option_fmap option_map].
    eexists. split; [reflexivity|]. split; [|split].
    + rewrite lookup_insert_ne, lookup_insert_eq by done.
      by rewrite getitem_insert_ne, getitem_insert_eq by done.
    + rewrite lookup_insert_eq.
      by rewrite getitem_insert_ne, getitem_insert_eq by done.
    + intros k Hks Hke. by rewrite !lookup_insert_ne by done.
Qed.

Lemma split_raises df :
  "Insurance_period" ∈ columns df →
  expand_width (str_split "-" <$> series "Insurance_period" df) ≠ 2%nat →
  ∃ e, split_insurance_dates df = Raise e.
Proof.
  intros Hcol Hw. unfold split_insurance_dates.
  rewrite require_elem by done. cbn [mbind result_bind].
  rewrite decide_False by done. by eexists.
Qed.





(** C4, as amended.  [split_insurance_dates] completes exactly when the
    longest split has two parts: no value has more than one hyphen (a value
    that is not a string counts as one part) and some value has one.  Then
    every row stays in place with its other columns unchanged; its start and
    end date are parsed from its own two parts, and a part that does not
    parse or is absent gives a missing date.  Otherwise the step raises. *)
Theorem split_insurance_dates_spec df :
  "Insurance_period" ∈ columns df →
  let col := series "Insurance_period" df in
  let parts := str_split "-" <$> col in
  (expand_width parts ≠ 2%nat → ∃ e, split_insurance_dates df = Raise e)
  ∧ (expand_width parts = 2%nat →
     ∃ out,
       split_insurance_dates df = Ok out
       ∧ nrows out = nrows df
       ∧ ∀ i r, rows df !! i = Some r →
           ∃ r', rows out !! i = Some r'
                 ∧ r' !! "start_date"
                   = Some (to_datetime_dmy
                             (default NaN
                                (str_split "-" r.["Insurance_period"] !! 0%nat)))
                 ∧ r' !! "end_date"
                   = Some (to_datetime_dmy
                             (default NaN
                                (str_split "-" r.["Insurance_period"] !! 1%nat)))
                 ∧ ∀ k, k ≠ "start_date" → k ≠ "end_date" → r' !! k = r !! k)
  ∧ (expand_width parts = 2%nat
     ↔ Forall (fun c => (length (str_split "-" c) ≤ 2)%nat) col
       ∧ Exists (fun c => length (str_split "-" c) = 2%nat) col)
  ∧ ∀ s, length (str_split "-" (Str s)) = S (occurrences "-" s).
Proof.
  intros Hcol col parts. split; [|split; [|split]].
  - by apply split_raises.
  - intros Hw.
    destruct (split_rows df Hcol Hw) as (out & Hrun & Hn & _ & Hrows).
    by exists out.
  - unfold expand_width, parts. rewrite max_list_eq by lia.
    rewrite <- list_fmap_compose, Forall_fmap, Exists_fmap. done.
  - intros s. cbn [str_split]. by rewrite length_fmap, split_length.
Qed.

Lemma split_insurance_dates_witness :
  ∃ out, split_insurance_dates one_quarter = Ok out
         ∧ nrows out = nrows one_quarter.
Proof.
  assert (Hcol : "Insurance_period" ∈ columns one_quarter)
    by (vm_compute; left).
  destruct (split_insurance_dates_spec one_quarter Hcol) as (_ & Hok & _).
  destruct Hok as (out & Hrun & Hn & _); [vm_compute; reflexivity|].
  by exists out.
Defined.

(** C4, as stated, fails on dates written with hyphens: the split has six
    parts, which cannot be assigned to the two date columns, and [clean]
    ends there. *)
Lemma clean_aborts_on_hyphenated_dates :
  ¬ clean_completes hyphenated_dates.
Proof.
  intros [out Hrun].
  assert (Hraise : clean hyphenated_dates = Raise ValueError)
    by (vm_compute; reflexivity).
  rewrite Hraise in Hrun. discriminate Hrun.
Qed.

(** C7.  The duration step completes only on a table in which every row
    has both dates.  On a policy whose end date does not parse, the date
    split leaves a missing end_date and the duration step then stops at the
    assertion of [relativedelta]: [clean] aborts, no Insurance_months is
    produced. *)
Theorem missing_end_date_aborts :
  (∀ df out,
     calculate_insurance_duration df = Ok out →
     ∀ r, r ∈ rows df →
          ∃ s e, r.["start_date"] = Date s ∧ r.["end_date"] = Date e)
  ∧ clean unparsable_end = Raise AssertionError
  ∧ ∃ df4 r,
      (df ← drop_features unparsable_end;
       df ← adjust_invalid_driving_experience df;
       df ← clean_vehicle_and_insurance_info df;
       split_insurance_dates df) = Ok df4
      ∧ rows df4 = [r]
      ∧ r !! "end_date" = Some NaN
      ∧ calculate_months r = Raise AssertionError
      ∧ calculate_insurance_duration df4 = Raise AssertionError.
Proof.
  split; [apply duration_needs_dates|].
  split; [vm_compute; reflexivity|].
  eexists _, _. split; [vm_compute; reflexivity|].
  split; [reflexivity|]. repeat split; vm_compute; reflexivity.
Qed.

Lemma missing_end_date_aborts_witness :
  ∃ out,
    calculate_insurance_duration one_quarter_dates = Ok out
    ∧ ∀ r, r ∈ rows one_quarter_dates →
           ∃ s e, r.["start_date"] = Date s ∧ r.["end_date"] = Date e.
Proof.
  eexists. split; [vm_compute; reflexivity|].
  eapply (proj1 missing_end_date_aborts one_quarter_dates).
  vm_compute. reflexivity.
Defined.

(** * Further properties of the steps *)

(** ** Tables after the primitives *)

Lemma nrows_assign label f df : nrows (assign label f df) = nrows df.
Proof. unfold nrows, assign. cbn [rows]. by rewrite length_fmap. Qed.

Lemma nrows_setitem label values df :
  length values = nrows df → nrows (setitem label values df) = nrows df.
Proof.
  unfold nrows, setitem. cbn [rows]. intros Hlen.
  rewrite length_zip_with. lia.
Qed.

Lemma nrows_drop_columns labels df df' :
  drop_columns labels df = Ok df' → nrows df' = nrows df.
Proof.
  intros [_ Hrows]%drop_columns_Ok. unfold nrows.
  by rewrite Hrows, length_fmap.
Qed.

Lemma lookup_deletes_eq labels k (r : gmap string cell) :
  k ∈ labels → foldr delete r labels !! k = None.
Proof.
  induction labels as [|l labels IH]; [by intros ?%elem_of_nil|].
  cbn [foldr]. intros Hk. destruct (decide (l = k)) as [->|Hne].
  - apply lookup_delete_eq.
  - rewrite lookup_delete_ne by done. apply IH.
    apply elem_of_cons in Hk as [->|Hk]; done.
Qed.

Lemma drop_columns_missing labels df :
  ¬ Forall (fun l => l ∈ columns df) labels →
  ∃ l, drop_columns labels df = Raise (KeyError l)
       ∧ l ∈ labels ∧ l ∉ columns df.
Proof.
  intros Hmiss. unfold drop_columns, first_missing.
  destruct (filter (fun l => l ∉ columns df) labels) as [|l ls] eqn:Hf.
  - exfalso. apply Hmiss. apply Forall_forall. intros l Hl.
    destruct (decide (l ∈ columns df)) as [|Hout]; [done|].
    assert (Hin : l ∈ filter (fun l => l ∉ columns df) labels)
      by by apply list_elem_of_filter.
    rewrite Hf in Hin. by apply elem_of_nil in Hin.
  - exists l. split; [done|].
    assert (Hin : l ∈ filter (fun l => l ∉ columns df) labels)
      by (rewrite Hf; left).
    apply list_elem_of_filter in Hin. tauto.
Qed.

(** [drop_features]: with the five columns in the table, they are removed
    from the column index and from every row, and nothing else changes:
    the other columns keep their order, the rows their position and their
    other values.  With one of them absent the step raises a KeyError
    for an absent one and returns no table. *)
Theorem drop_features_outcome df :
  match drop_features df with
  | Ok out =>
      Forall (fun l => l ∈ columns df) dropped_features
      ∧ columns out = filter (fun c => c ∉ dropped_features) (columns df)
      ∧ nrows out = nrows df
      ∧ ∀ i r, rows df !! i = Some r →
          ∃ r', rows out !! i = Some r'
                ∧ ∀ k, r' !! k
                       = if decide (k ∈ dropped_features) then None
                         else r !! k
  | Raise e =>
      ∃ l, e = KeyError l ∧ l ∈ dropped_features ∧ l ∉ columns df
  end.
Proof.
  unfold drop_features. fold dropped_features.
  destruct (decide (Forall (fun l => l ∈ columns df) dropped_features))
    as [Hall|Hmiss].
  - rewrite drop_columns_present by done. split; [done|].
    cbn [columns rows]. split; [done|]. split.
    + unfold nrows. cbn [rows]. by rewrite length_fmap.
    + intros i r Hi. rewrite list_lookup_fmap, Hi. eexists.
      split; [reflexivity|]. intros k. case_decide.
      * by apply lookup_deletes_eq.
      * by apply lookup_deletes_ne.
  - destruct (drop_columns_missing _ _ Hmiss) as (l & -> & Hl & Hout).
    by exists l.
Qed.

(** ** adjust_invalid_driving_experience as a function of the table *)

Lemma filter_add_label label cols :
  filter (fun c => c ∉ [label]) (add_label label cols)
  = filter (fun c => c ≠ label) cols.
Proof.
  assert (Hext : filter (fun c => c ∉ [label]) cols
                 = filter (fun c => c ≠ label) cols).
  { apply list_filter_iff. intros c. rewrite list_elem_of_singleton. done. }
  unfold add_label. case_decide; [done|].
  rewrite filter_app, Hext, filter_cons, decide_False, filter_nil.
  - apply app_nil_r.
  - intros Hl. apply Hl. left.
Qed.

Lemma adjust_table df out :
  adjust_invalid_driving_experience df = Ok out →
  "Age" ∈ columns df ∧ "Driving_experience" ∈ columns df
  ∧ columns out = filter (fun c => c ≠ "Age_gap") (columns df).
Proof.
  unfold adjust_invalid_driving_experience. intros Hrun.
  apply bind_Ok in Hrun as (_ & Ha%require_Ok & Hrun).
  apply bind_Ok in Hrun as (_ & He%require_Ok & Hrun).
  destruct (negb _) in Hrun; [done|].
  destruct (negb _) in Hrun; [done|].
  apply bind_Ok in Hrun as (mid & Hdrop & Hrun).
  injection Hrun as <-. apply drop_columns_Ok in Hdrop as [Hcols _].
  cbn [columns select assign] in *. rewrite Hcols.
  split; [done|]. split; [done|]. apply filter_add_label.
Qed.

Lemma float_exact_small c : float_exact c = small c.
Proof. done. Qed.

(** Within the range the step completes on every table with the two
    columns and numbers in them. *)
Lemma adjust_completes df :
  "Age" ∈ columns df → "Driving_experience" ∈ columns df →
  Forall (fun r : gmap string cell =>
            numeric r.["Age"] = true
            ∧ numeric r.["Driving_experience"] = true) (rows df) →
  experience_in_range df →
  ∃ out, adjust_invalid_driving_experience df = Ok out.
Proof.
  intros Ha He Hnum Hrange. unfold adjust_invalid_driving_experience.
  rewrite !require_elem by done. cbn [mbind result_bind].
  assert (Hall : forallb numeric (series "Age" df)
                 && forallb numeric (series "Driving_experience" df)
                 = true).
  { apply andb_true_iff. split; apply forallb_forall; intros c Hc;
      apply list_elem_of_In in Hc; unfold series in Hc;
      apply list_elem_of_fmap in Hc as (r & -> & Hr);
      rewrite Forall_forall in Hnum; by destruct (Hnum r Hr). }
  assert (Hexact : forallb float_exact (series "Age" df)
                   && forallb float_exact (series "Driving_experience" df)
                   = true).
  { unfold experience_in_range in Hrange.
    apply andb_true_iff. split; apply forallb_forall; intros c Hc;
      apply list_elem_of_In in Hc; unfold series in Hc;
      apply list_elem_of_fmap in Hc as (r & -> & Hr);
      rewrite Forall_forall in Hrange; rewrite float_exact_small;
      by destruct (Hrange r Hr). }
  rewrite Hall, Hexact, orb_true_r. cbn [negb].
  rewrite drop_columns_present; [by eexists|].
  cbn [columns select assign]. repeat constructor.
  apply elem_of_add_label. by left.
Qed.

Lemma adjust_run df :
  "Age" ∈ columns df → "Driving_experience" ∈ columns df →
  Forall (fun r : gmap string cell =>
            numeric r.["Age"] = true
            ∧ numeric r.["Driving_experience"] = true) (rows df) →
  experience_in_range df →
  adjust_invalid_driving_experience df
  = Ok {| columns := filter (fun c => c ≠ "Age_gap") (columns df);
          rows := omap adjusted_row (rows df) |}.
Proof.
  intros Ha He Hnum Hrange.
  destruct (adjust_completes df Ha He Hnum Hrange) as [out Hrun].
  rewrite Hrun. f_equal.
  pose proof (adjust_rows _ _ Hrange Hrun) as Hrows.
  apply adjust_table in Hrun as (_ & _ & Hcols).
  destruct out as [cols rs]. cbn [rows columns] in *. by subst.
Qed.



Lemma adjusted_row_fixed (r r' : gmap string cell) :
  numeric r.["Age"] = true → small r.["Age"] = true →
  small r.["Driving_experience"] = true →
  adjusted_row r = Some r' →
  (numeric r'.["Age"] = true ∧ numeric r'.["Driving_experience"] = true)
  ∧ (small r'.["Age"] = true ∧ small r'.["Driving_experience"] = true)
  ∧ adjusted_row r' = Some r'.
Proof.
  intros Hnum Hsa Hse Hadj.
  destruct (adjusted_row_bounds _ _ Hadj) as (Hage & d & Hd & Hpos & Hle).
  assert (Hgap : r' !! "Age_gap" = None).
  { unfold adjusted_row in Hadj.
    destruct (r.["Age"]) as [|a| |]; try done;
      destruct (r.["Driving_experience"]) as [|d0| |]; try done;
      case_decide; try done; injection Hadj as <-.
    - apply lookup_delete_eq.
    - rewrite lookup_insert_ne by done. apply lookup_delete_eq. }
  assert (Hsd : small (Num d) = true).
  { unfold adjusted_row in Hadj.
    destruct (r.["Age"]) as [|a| |] eqn:Hra; try done;
      destruct (r.["Driving_experience"]) as [|d0| |] eqn:Hrd; try done;
      case_decide; try done; injection Hadj as <-.
    - rewrite getitem_delete_ne, Hrd in Hd by done. by injection Hd as <-.
    - rewrite getitem_insert_eq in Hd. injection Hd as <-.
      apply small_Num in Hsa, Hse. apply small_Num. lia. }
  rewrite Hage, Hd. split; [done|]. split; [done|].
  unfold adjusted_row. rewrite Hage, Hd.
  destruct Hle as [->|(a & -> & Hle)].
  - rewrite decide_True by done. by rewrite delete_id.
  - rewrite decide_True by lia. rewrite delete_id by done.
    replace (Z.min d (a - 18)) with d by lia.
    rewrite insert_id; [done|]. by apply getitem_Some.
Qed.

Lemma omap_fixed {A} (f : A → option A) (l : list A) :
  Forall (fun x => f x = Some x) l → omap f l = l.
Proof.
  induction 1 as [|x l Hx _ IH]; [done|]. cbn [omap list_omap].
  rewrite Hx. cbn. by rewrite IH.
Qed.

(** On a table whose ages and experiences lie within [-2 ^ 51, 2 ^ 51],
    running [adjust_invalid_driving_experience] a second time changes
    nothing: on the table it returned the step completes and returns that
    same table. *)
Theorem adjust_idempotent df out :
  experience_in_range df →
  adjust_invalid_driving_experience df = Ok out →
  adjust_invalid_driving_experience out = Ok out.
Proof.
  intros Hrange Hrun. pose proof (adjust_columns _ _ Hrun) as [Ha He].
  pose proof (adjust_rows _ _ Hrange Hrun) as Hrows.
  pose proof (adjust_numeric _ _ Hrun) as Hnum.
  unfold experience_in_range in Hrange. rewrite Forall_forall in Hrange.
  assert (Hfix : Forall (fun r' : gmap string cell =>
                           (numeric r'.["Age"] = true
                            ∧ numeric r'.["Driving_experience"] = true)
                           ∧ (small r'.["Age"] = true
                              ∧ small r'.["Driving_experience"] = true)
                           ∧ adjusted_row r' = Some r') (rows out)).
  { apply Forall_forall. intros r' Hr'. rewrite Hrows in Hr'.
    apply list_elem_of_omap in Hr' as (r & Hr & Hadj).
    destruct (Hnum r Hr) as [Hna _]. destruct (Hrange r Hr) as [Hsa Hse].
    by eapply adjusted_row_fixed. }
  rewrite adjust_run; [|done..| |].
  2: { eapply Forall_impl; [exact Hfix|]. cbn. tauto. }
  2: { eapply Forall_impl; [exact Hfix|]. cbn. tauto. }
  apply adjust_table in Hrun as (_ & _ & Hcols).
  destruct out as [cols rs]. cbn [columns rows] in *. f_equal. f_equal.
  - rewrite Hcols, list_filter_filter. apply list_filter_iff. tauto.
  - apply omap_fixed. eapply Forall_impl; [exact Hfix|]. cbn. tauto.
Qed.

Lemma adjust_idempotent_witness :
  adjust_invalid_driving_experience
    (mkdf ["Age"; "Driving_experience"]
       [ {[ "Age" := Num 40; "Driving_experience" := Num 10 ]};
         {[ "Age" := Num 20; "Driving_experience" := Num 2 ]} ])
  = Ok (mkdf ["Age"; "Driving_experience"]
          [ {[ "Age" := Num 40; "Driving_experience" := Num 10 ]};
            {[ "Age" := Num 20; "Driving_experience" := Num 2 ]} ]).
Proof.
  apply (adjust_idempotent three_drivers).
  - evaluate.
  - vm_compute. reflexivity.
Defined.

(** ** Drivers in the table that clean returns *)


Section Drivers.

Context `{PandasLib}.


End Drivers.


(** ** Columns of a table, column by column *)

Lemma add_label_elem label cols : label ∈ cols → add_label label cols = cols.
Proof. intros. unfold add_label. by rewrite decide_True. Qed.

Lemma filter_fmap_comm {A B} (f : A → B) (P : B → Prop)
    `{∀ y, Decision (P y)} (l : list A) :
  filter P (f <$> l) = f <$> filter (fun x => P (f x)) l.
Proof.
  induction l as [|x l IH]; [done|]. rewrite fmap_cons, !filter_cons.
  case_decide; [|done]. by rewrite fmap_cons, IH.
Qed.

Lemma series_assign_eq label f df :
  series label (assign label f df) = f <$> rows df.
Proof.
  unfold series, assign. cbn [rows]. rewrite <- list_fmap_compose.
  apply list_fmap_ext. intros i r _. cbn. apply getitem_insert_eq.
Qed.

Lemma series_assign_ne label k f df :
  label ≠ k → series k (assign label f df) = series k df.
Proof.
  intros Hne. unfold series, assign. cbn [rows].
  rewrite <- list_fmap_compose.
  apply list_fmap_ext. intros i r _. cbn. by apply getitem_insert_ne.
Qed.

Lemma series_setitem_ne label k values df :
  length values = nrows df → label ≠ k →
  series k (setitem label values df) = series k df.
Proof.
  unfold series, setitem, nrows. cbn [rows]. intros Hlen Hne.
  revert values Hlen. induction (rows df) as [|r rs IH]; intros [|v vs] Hlen;
    try done.
  cbn. rewrite getitem_insert_ne by done. f_equal. apply IH.
  cbn in Hlen. lia.
Qed.

Lemma series_select label keep df :
  series label (select keep df)
  = getitem label <$> filter (fun r => keep r = true) (rows df).
Proof. done. Qed.

Lemma series_drop_columns labels k df df' :
  drop_columns labels df = Ok df' → k ∉ labels →
  series k df' = series k df.
Proof.
  intros [_ Hrows]%drop_columns_Ok Hk. unfold series. rewrite Hrows.
  rewrite <- list_fmap_compose.
  apply list_fmap_ext. intros i r _. cbn. by apply getitem_deletes_ne.
Qed.

(** ** clean_vehicle_and_insurance_info *)

Section VehicleStep.

Context `{PandasLib}.

(** [clean_vehicle_and_insurance_info] looks its two columns up after
    stripping the whitespace around every column label (on a table whose
    stripped labels are distinct): it completes exactly when Vehicle_type
    and Year_of_manufacture are among the stripped labels, and raises a
    KeyError for the first of the two that is not.  The table returned has
    the stripped labels in their order, without Year_of_manufacture and
    with Car_age (at the end, if it was not a column before). *)
Theorem clean_vehicle_outcome df :
  let cols := PyStr.strip <$> columns df in
  NoDup cols →
  match clean_vehicle_and_insurance_info df with
  | Ok out =>
      "Vehicle_type" ∈ cols ∧ "Year_of_manufacture" ∈ cols
      ∧ columns out
        = filter (fun c => c ≠ "Year_of_manufacture") (add_label "Car_age" cols)
  | Raise e =>
      (e = KeyError "Vehicle_type" ∧ "Vehicle_type" ∉ cols)
      ∨ (e = KeyError "Year_of_manufacture"
         ∧ "Vehicle_type" ∈ cols ∧ "Year_of_manufacture" ∉ cols)
  end.
Proof.
  intros cols Hnd.
  unfold clean_vehicle_and_insurance_info, filter_and_map_vehicle_types,
    strip_columns.
  fold cols. rewrite decide_True by done. cbn [mbind result_bind].
  unfold require at 1. cbn [columns].
  destruct (decide ("Vehicle_type" ∈ cols)) as [Hv|Hv];
    cbn [mbind result_bind]; [|by left].
  unfold calculate_car_age, require. cbn [columns assign select].
  rewrite (add_label_elem "Vehicle_type") by done.
  destruct (decide ("Year_of_manufacture" ∈ cols)) as [Hy|Hy];
    cbn [mbind result_bind]; [|by right].
  rewrite drop_columns_present.
  - cbn [columns assign setitem select].
    rewrite (add_label_elem "Vehicle_type") by done.
    rewrite (add_label_elem "Year_of_manufacture") by done.
    split; [done|]. split; [done|].
    apply list_filter_iff. intros c. rewrite list_elem_of_singleton. done.
  - cbn [columns assign setitem select]. repeat constructor.
    apply elem_of_add_label. right. apply elem_of_add_label. by left.
Qed.

(** The Vehicle_type column after [clean_vehicle_and_insurance_info]: the
    column before it with the two trailer types taken out and every other
    value looked up in [vehicle_mapping], in the same order.  A missing
    Vehicle_type is not a trailer, so its row stays. *)
Theorem vehicle_types_filtered_then_mapped df out :
  "Vehicle_type" ∈ columns df →
  clean_vehicle_and_insurance_info df = Ok out →
  series "Vehicle_type" out
  = map_dict vehicle_mapping
      <$> filter (fun c => c ∉ trailers) (series "Vehicle_type" df).
Proof.
  unfold clean_vehicle_and_insurance_info. intros Hcol Hrun.
  apply bind_Ok in Hrun as (mid & Hmap & Hrun).
  unfold filter_and_map_vehicle_types in Hmap.
  apply bind_Ok in Hmap as (df1 & Hstrip & Hmap).
  apply bind_Ok in Hmap as (_ & _ & Hmap). injection Hmap as <-.
  unfold calculate_car_age in Hrun.
  apply bind_Ok in Hrun as (_ & _ & Hrun).
  rewrite (series_drop_columns _ _ _ _ Hrun) by evaluate.
  rewrite series_assign_ne by done.
  rewrite series_setitem_ne; [| |done].
  2: { rewrite length_fmap, to_datetime_length. unfold series.
       by rewrite length_fmap. }
  rewrite series_assign_eq. cbn [rows select].
  apply strip_columns_Ok in Hstrip as (Hnd & _ & Hrows). rewrite Hrows.
  unfold series. rewrite !filter_fmap_comm, <- !list_fmap_compose.
  assert (Hvt : ∀ r : gmap string cell,
            (list_to_map ((fun c => (PyStr.strip c, r.[c])) <$> columns df)
               : gmap string cell).["Vehicle_type"] = r.["Vehicle_type"]).
  { intros r. by apply getitem_stripped. }
  erewrite list_filter_iff.
  - apply list_fmap_ext. intros i r _. cbn. by rewrite Hvt.
  - intros r. cbn. rewrite Hvt. unfold isin.
    rewrite negb_true_iff, bool_decide_eq_false. done.
Qed.

End VehicleStep.

(** ** Row counts and columns, step by step *)

Lemma drop_columns_needs labels df df' :
  drop_columns labels df = Ok df' → Forall (fun l => l ∈ columns df) labels.
Proof.
  intros Hrun.
  destruct (decide (Forall (fun l => l ∈ columns df) labels)) as [|Hmiss];
    [done|].
  destruct (drop_columns_missing _ _ Hmiss) as (l & Hl & _). congruence.
Qed.

Lemma expand_width_nil : expand_width [] = 0%nat.
Proof. done. Qed.

Section StepTables.

Context `{PandasLib}.

Lemma split_table df out :
  split_insurance_dates df = Ok out →
  "Insurance_period" ∈ columns df
  ∧ nrows out = nrows df
  ∧ rows df ≠ []
  ∧ ∀ k, k ∈ columns out
         ↔ k = "start_date" ∨ k = "end_date" ∨ k ∈ columns df.
Proof.
  unfold split_insurance_dates. intros Hrun.
  apply bind_Ok in Hrun as (_ & Hp%require_Ok & Hrun).
  case_decide as Hw; [|done]. injection Hrun as <-.
  split; [done|]. split; [|split].
  - rewrite !nrows_assign, !nrows_setitem; [done|..].
    + unfold series, nrows. by rewrite !length_fmap.
    + rewrite nrows_setitem; unfold series, nrows; by rewrite !length_fmap.
  - intros Hnil. unfold series in Hw. by rewrite Hnil in Hw.
  - intros k. cbn [columns assign setitem]. rewrite !elem_of_add_label. tauto.
Qed.

Lemma duration_table df out :
  calculate_insurance_duration df = Ok out →
  nrows out = nrows df
  ∧ rows df ≠ []
  ∧ Forall (fun l => l ∈ columns df)
      ["Insurance_period"; "start_date"; "end_date"]
  ∧ ∀ k, k ∈ columns out
         ↔ (k ∉ ["Insurance_period"; "start_date"; "end_date"])
           ∧ (k = "Insurance_months" ∨ k ∈ columns df).
Proof.
  intros Hrun. pose proof (duration_rows _ _ Hrun) as [Hn _].
  unfold calculate_insurance_duration in Hrun.
  destruct (rows df) as [|r0 rs] eqn:Hrows; [done|]. rewrite <- Hrows in *.
  apply bind_Ok in Hrun as (_ & He%require_Ok & Hrun).
  apply bind_Ok in Hrun as (_ & Hs%require_Ok & Hrun).
  apply bind_Ok in Hrun as (values & _ & Hrun).
  pose proof (drop_columns_needs _ _ _ Hrun) as Hneed.
  apply drop_columns_Ok in Hrun as [Hcols _]. cbn [columns setitem] in *.
  split; [done|]. split; [by rewrite Hrows|]. split.
  - apply Forall_cons in Hneed as [Hp _].
    apply elem_of_add_label in Hp as [|Hp]; [done|]. by repeat constructor.
  - intros k. rewrite Hcols, list_elem_of_filter, elem_of_add_label. done.
Qed.

Lemma privileges_table df out :
  fill_missing_privileges df = Ok out →
  nrows out = nrows df ∧ columns out = columns df.
Proof.
  unfold fill_missing_privileges. intros Hrun.
  case_decide; injection Hrun as <-; [|done].
  split; [apply nrows_assign|]. cbn [columns assign]. by apply add_label_elem.
Qed.

Lemma colors_table df out :
  standardize_colors df = Ok out →
  nrows out = nrows df ∧ columns out = columns df.
Proof.
  unfold standardize_colors. intros Hrun.
  case_decide; injection Hrun as <-; [|done].
  split; [apply nrows_assign|]. cbn [columns assign]. by apply add_label_elem.
Qed.

Lemma collapse_table label old new n df :
  nrows (collapse label old new n df) = nrows df
  ∧ columns (collapse label old new n df) = columns df.
Proof.
  unfold collapse. case_decide; [|done].
  split; [by rewrite !nrows_assign|]. cbn [columns assign].
  by rewrite !(add_label_elem label (columns df)).
Qed.

Lemma brands_table df out :
  standardize_brands_and_models df = Ok out →
  nrows out = nrows df ∧ columns out = columns df.
Proof.
  unfold standardize_brands_and_models. intros [= <-].
  destruct (collapse_table "Brand" "Лада" "Lada" 37 df) as [Hn1 Hc1].
  destruct (collapse_table "Model" "." "Unknown" 50
              (collapse "Brand" "Лада" "Lada" 37 df)) as [Hn2 Hc2].
  split; congruence.
Qed.

Lemma region_table df out :
  map_city_to_region df = Ok out →
  nrows out = nrows df
  ∧ ∀ k, k ∈ columns out
         ↔ if decide ("City" ∈ columns df)
           then k = "Region"
                ∨ (k ∈ columns df ∧ k ≠ "City" ∧ k ≠ "City_cleaned")
           else k ∈ columns df.
Proof.
  unfold map_city_to_region. intros Hrun.
  destruct (decide ("City" ∈ columns df)) as [Hc|Hc];
    [|by injection Hrun as <-].
  apply bind_Ok in Hrun as (mid & Hdrop & Hrun). injection Hrun as <-.
  split.
  - rewrite nrows_assign, (nrows_drop_columns _ _ _ Hdrop).
    by rewrite !nrows_assign.
  - apply drop_columns_Ok in Hdrop as [Hcols _]. intros k.
    cbn [columns assign] in *.
    rewrite elem_of_add_label, Hcols, list_elem_of_filter, !elem_of_add_label.
    rewrite !not_elem_of_cons. split.
    + intros [->|[(Hk1 & Hk2 & _) [->|[->|Hk]]]]; auto; done.
    + intros [->|(Hk & Hk1 & Hk2)]; [by left|]. right. split; [|auto].
      split; [done|]. split; [done|]. apply not_elem_of_nil.
Qed.

(** Apart from [adjust_invalid_driving_experience] and
    [clean_vehicle_and_insurance_info], which filter rows, each step
    returns a table with exactly as many rows as it was given. *)
Theorem other_steps_keep_every_row step df df' :
  step ∈ [ drop_features; split_insurance_dates;
           calculate_insurance_duration; fill_missing_privileges;
           standardize_colors; standardize_brands_and_models;
           map_city_to_region ] →
  step df = Ok df' → nrows df' = nrows df.
Proof.
  intros Hstep Hrun.
  repeat (apply elem_of_cons in Hstep as [->|Hstep]).
  - by eapply nrows_drop_columns.
  - by apply split_table in Hrun as (_ & Hn & _).
  - by apply duration_table in Hrun as (Hn & _).
  - by apply privileges_table in Hrun as (Hn & _).
  - by apply colors_table in Hrun as (Hn & _).
  - by apply brands_table in Hrun as (Hn & _).
  - by apply region_table in Hrun as (Hn & _).
  - by apply elem_of_nil in Hstep.
Qed.

(** [clean] never returns a table without rows: the date split and the
    duration step both raise on such a table, and the steps after them keep
    the row count.  An input from which the first three steps leave no
    row is not cleaned to an empty table, it makes [clean] raise. *)
Theorem clean_never_returns_empty_table df out :
  clean df = Ok out → rows out ≠ [].
Proof.
  unfold clean. intros Hrun.
  apply bind_Ok in Hrun as (df1 & _ & Hrun).
  apply bind_Ok in Hrun as (df2 & _ & Hrun).
  apply bind_Ok in Hrun as (df3 & _ & Hrun).
  apply bind_Ok in Hrun as (df4 & _ & Hrun).
  apply bind_Ok in Hrun as (df5 & H5 & Hrun).
  apply bind_Ok in Hrun as (df6 & H6 & Hrun).
  apply bind_Ok in Hrun as (df7 & H7 & Hrun).
  apply bind_Ok in Hrun as (df8 & H8 & Hrun).
  apply bind_Ok in Hrun as (df9 & H9 & Hrun). injection Hrun as <-.
  apply duration_table in H5 as (Hn5 & Hne & _).
  apply privileges_table in H6 as [Hn6 _].
  apply colors_table in H7 as [Hn7 _].
  apply brands_table in H8 as [Hn8 _].
  apply region_table in H9 as [Hn9 _].
  assert (Hn : nrows df9 = nrows df4) by congruence.
  unfold nrows in Hn. intros Hnil. rewrite Hnil in Hn.
  destruct (rows df4); [done|discriminate Hn].
Qed.

End StepTables.

Lemma other_steps_keep_every_row_witness :
  ∃ out, split_insurance_dates one_quarter = Ok out
         ∧ nrows out = nrows one_quarter.
Proof.
  eexists. split; [vm_compute; reflexivity|].
  apply (other_steps_keep_every_row split_insurance_dates).
  - right. left.
  - vm_compute. reflexivity.
Defined.

Lemma clean_never_returns_empty_table_witness :
  ∃ out, clean three_policies = Ok out ∧ rows out ≠ [].
Proof.
  eexists. split; [vm_compute; reflexivity|].
  apply (clean_never_returns_empty_table three_policies).
  vm_compute. reflexivity.
Defined.

(** ** The columns of the table that clean returns *)

(** Solves conjunctions of facts about labels. *)
Ltac labels := repeat split; first [done | by intros [] | auto 10].

Section Columns.

Context `{PandasLib}.

Lemma clean_vehicle_table df out :
  clean_vehicle_and_insurance_info df = Ok out →
  let cols := PyStr.strip <$> columns df in
  NoDup cols
  ∧ "Vehicle_type" ∈ cols ∧ "Year_of_manufacture" ∈ cols
  ∧ columns out
    = filter (fun c => c ≠ "Year_of_manufacture") (add_label "Car_age" cols).
Proof.
  intros Hrun cols. unfold clean_vehicle_and_insurance_info in Hrun.
  apply bind_Ok in Hrun as (mid & Hmap & Hrun).
  unfold filter_and_map_vehicle_types in Hmap.
  apply bind_Ok in Hmap as (df1 & Hstrip & Hmap).
  apply bind_Ok in Hmap as (_ & Hv%require_Ok & Hmap). injection Hmap as <-.
  unfold calculate_car_age in Hrun.
  apply bind_Ok in Hrun as (_ & Hy%require_Ok & Hrun).
  apply drop_columns_Ok in Hrun as [Hcols _].
  apply strip_columns_Ok in Hstrip as (Hnd & Hc1 & _).
  cbn [columns assign setitem select] in *. subst cols.
  rewrite Hc1 in Hv, Hy, Hcols.
  rewrite (add_label_elem "Vehicle_type") in Hy, Hcols by done.
  rewrite (add_label_elem "Year_of_manufacture") in Hcols by done.
  do 3 (split; [done|]). rewrite Hcols.
  apply list_filter_iff. intros c. rewrite list_elem_of_singleton. done.
Qed.

(** The tables between the steps of a run of [clean]. *)
Lemma clean_steps df out :
  clean df = Ok out →
  ∃ df1 df2 df3 df4 df5 df6 df7 df8,
    drop_features df = Ok df1
    ∧ adjust_invalid_driving_experience df1 = Ok df2
    ∧ clean_vehicle_and_insurance_info df2 = Ok df3
    ∧ split_insurance_dates df3 = Ok df4
    ∧ calculate_insurance_duration df4 = Ok df5
    ∧ fill_missing_privileges df5 = Ok df6
    ∧ standardize_colors df6 = Ok df7
    ∧ standardize_brands_and_models df7 = Ok df8
    ∧ map_city_to_region df8 = Ok out.
Proof.
  unfold clean. intros Hrun.
  apply bind_Ok in Hrun as (df1 & H1 & Hrun).
  apply bind_Ok in Hrun as (df2 & H2 & Hrun).
  apply bind_Ok in Hrun as (df3 & H3 & Hrun).
  apply bind_Ok in Hrun as (df4 & H4 & Hrun).
  apply bind_Ok in Hrun as (df5 & H5 & Hrun).
  apply bind_Ok in Hrun as (df6 & H6 & Hrun).
  apply bind_Ok in Hrun as (df7 & H7 & Hrun).
  apply bind_Ok in Hrun as (df8 & H8 & Hrun).
  apply bind_Ok in Hrun as (df9 & H9 & Hrun). injection Hrun as <-.
  by exists df1, df2, df3, df4, df5, df6, df7, df8.
Qed.

Lemma clean_stripped_labels df out :
  clean df = Ok out →
  Forall (fun l => l ∈ stripped_labels (columns df))
    [ "Age"; "Driving_experience"; "Vehicle_type"; "Year_of_manufacture";
      "Insurance_period" ].
Proof.
  intros (df1 & df2 & df3 & df4 & df5 & df6 & df7 & df8
          & H1 & H2 & H3 & H4 & _)%clean_steps.
  apply drop_columns_Ok in H1 as [Hc1 _].
  pose proof (adjust_columns _ _ H2) as [Ha He].
  apply adjust_table in H2 as (_ & _ & Hc2).
  apply clean_vehicle_table in H3 as (_ & Hv & Hy & Hc3).
  apply split_table in H4 as (Hp & _).
  assert (HS : PyStr.strip <$> columns df2 = stripped_labels (columns df)).
  { unfold stripped_labels. by rewrite Hc2, Hc1. }
  rewrite HS in *. rewrite Hc3 in Hp.
  apply list_elem_of_filter in Hp as [_ Hp].
  apply elem_of_add_label in Hp as [|Hp]; [done|].
  rewrite <- HS. repeat constructor; try (by rewrite HS).
  - apply list_elem_of_fmap. by exists "Age".
  - apply list_elem_of_fmap. by exists "Driving_experience".
Qed.

Lemma clean_columns df out :
  clean df = Ok out →
  ∀ k, k ∈ columns out
       ↔ (k ∈ ["Car_age"; "Insurance_months"]
          ∨ k ∈ stripped_labels (columns df)
          ∨ (k = "Region" ∧ "City" ∈ stripped_labels (columns df)))
         ∧ (k ∉ [ "Year_of_manufacture"; "Insurance_period"; "start_date";
                  "end_date" ])
         ∧ ("City" ∈ stripped_labels (columns df) →
            k ≠ "City" ∧ k ≠ "City_cleaned").
Proof.
  intros (df1 & df2 & df3 & df4 & df5 & df6 & df7 & df8
          & H1 & H2 & H3 & H4 & H5 & H6 & H7 & H8 & H9)%clean_steps.
  apply drop_columns_Ok in H1 as [Hc1 _].
  apply adjust_table in H2 as (_ & _ & Hc2).
  apply clean_vehicle_table in H3 as (_ & _ & _ & Hc3).
  apply split_table in H4 as (_ & _ & _ & Hc4).
  apply duration_table in H5 as (_ & _ & _ & Hc5).
  apply privileges_table in H6 as [_ Hc6].
  apply colors_table in H7 as [_ Hc7].
  apply brands_table in H8 as [_ Hc8].
  apply region_table in H9 as [_ Hc9].
  assert (HS : PyStr.strip <$> columns df2 = stripped_labels (columns df)).
  { unfold stripped_labels. by rewrite Hc2, Hc1. }
  set (S := stripped_labels (columns df)) in *.
  assert (H8k : ∀ k, k ∈ columns df8
                     ↔ (k ∉ ["Insurance_period"; "start_date"; "end_date"])
                       ∧ (k = "Insurance_months"
                          ∨ k = "start_date" ∨ k = "end_date"
                          ∨ (k ≠ "Year_of_manufacture"
                             ∧ (k = "Car_age" ∨ k ∈ S)))).
  { intros k. rewrite Hc8, Hc7, Hc6, Hc5, Hc4, Hc3.
    rewrite list_elem_of_filter, elem_of_add_label, HS. done. }
  assert (HC : "City" ∈ columns df8 ↔ "City" ∈ S).
  { rewrite H8k, !not_elem_of_cons, !elem_of_nil. split.
    - by intros [_ [|[|[|[_ [|]]]]]].
    - intros HinS. split; [labels|]. do 3 right. split; [done|].
      by right. }
  intros k. rewrite Hc9.
  destruct (decide ("City" ∈ columns df8)) as [Hin|Hout];
    rewrite H8k, !not_elem_of_cons, !elem_of_cons, !elem_of_nil.
  - apply HC in Hin. split.
    + intros [->|[[(Hp & Hs & He & _) Hk] [Hc Hcc]]].
      { split; [auto|]. labels. }
      destruct Hk as [->|[->|[->|[Hy [->|Hk]]]]]; try done;
        (split; [auto|]); labels.
    + intros [Hk [(Hy & Hp & Hs & He & _) Hcity]].
      destruct (Hcity Hin) as [Hc Hcc].
      destruct Hk as [[->|[->|[]]]|[Hk|[-> _]]]; [right..|by left];
        (split; [|done]); (split; [labels|]); auto 10.
  - assert (HnS : "City" ∉ S) by (by rewrite <- HC). split.
    + intros [(Hp & Hs & He & _) Hk].
      destruct Hk as [->|[->|[->|[Hy [->|Hk]]]]]; try done;
        (split; [auto|]); labels.
    + intros [Hk [(Hy & Hp & Hs & He & _) _]].
      split; [labels|].
      destruct Hk as [[->|[->|[]]]|[Hk|[_ Hin]]]; [auto 10..|done].
Qed.

(** The columns of the table that [clean] returns, as a function of the
    columns of the input.  With S the input labels other than the five
    dropped features and Age_gap, stripped of surrounding whitespace, the
    output has the labels of S, Car_age and Insurance_months, and Region if
    City is in S; it has none of Year_of_manufacture, Insurance_period,
    start_date and end_date, and neither City nor City_cleaned if City is
    in S.  In particular Age, Driving_experience, Vehicle_type, Car_age
    and Insurance_months are always there. *)
Theorem clean_output_columns df out :
  clean df = Ok out →
  (∀ k, k ∈ columns out
        ↔ (k ∈ ["Car_age"; "Insurance_months"]
           ∨ k ∈ stripped_labels (columns df)
           ∨ (k = "Region" ∧ "City" ∈ stripped_labels (columns df)))
          ∧ (k ∉ [ "Year_of_manufacture"; "Insurance_period"; "start_date";
                   "end_date" ])
          ∧ ("City" ∈ stripped_labels (columns df) →
             k ≠ "City" ∧ k ≠ "City_cleaned"))
  ∧ Forall (fun l => l ∈ columns out)
      [ "Age"; "Driving_experience"; "Vehicle_type"; "Car_age";
        "Insurance_months" ]
  ∧ Forall (fun l => l ∉ columns out)
      [ "Year_of_manufacture"; "Insurance_period"; "start_date"; "end_date" ].
Proof.
  intros Hrun. pose proof (clean_columns _ _ Hrun) as Hcols.
  pose proof (clean_stripped_labels _ _ Hrun) as Hin.
  split; [done|].
  apply Forall_cons in Hin as [Ha Hin]. apply Forall_cons in Hin as [He Hin].
  apply Forall_cons in Hin as [Hv _].
  split.
  - repeat constructor; apply Hcols;
      (split; [|split; [evaluate|by intros _]]); auto.
    + left. evaluate.
    + left. evaluate.
  - repeat constructor; intros Hk; apply Hcols in Hk as (_ & Hk & _);
      revert Hk; evaluate.
Qed.

(** What [clean] needs of the input to complete: the five feature columns
    it drops and the columns Age and Driving_experience under these very
    labels, and the columns Vehicle_type, Year_of_manufacture and
    Insurance_period, which may carry whitespace around their labels. *)
Theorem clean_required_columns df out :
  clean df = Ok out →
  Forall (fun l => l ∈ columns df)
    (dropped_features ++ ["Age"; "Driving_experience"])
  ∧ Forall (fun l => ∃ c, c ∈ columns df ∧ PyStr.strip c = l)
      ["Vehicle_type"; "Year_of_manufacture"; "Insurance_period"].
Proof.
  intros Hrun. pose proof (clean_stripped_labels _ _ Hrun) as Hin.
  apply clean_steps in Hrun as (df1 & df2 & _ & _ & _ & _ & _ & _
                                & H1 & H2 & _).
  pose proof (drop_columns_needs _ _ _ H1) as Hfive.
  apply drop_columns_Ok in H1 as [Hc1 _].
  apply adjust_table in H2 as (Ha & He & _). rewrite Hc1 in Ha, He.
  apply list_elem_of_filter in Ha as [_ Ha].
  apply list_elem_of_filter in He as [_ He].
  split.
  - apply Forall_app. split; [done|]. by repeat constructor.
  - apply Forall_cons in Hin as [_ Hin]. apply Forall_cons in Hin as [_ Hin].
    eapply Forall_impl; [exact Hin|]. cbn. intros l Hl.
    unfold stripped_labels in Hl.
    apply list_elem_of_fmap in Hl as (c & -> & Hc).
    apply list_elem_of_filter in Hc as [_ Hc].
    apply list_elem_of_filter in Hc as [_ Hc]. by exists c.
Qed.

(** [clean] cannot be run a second time on what it returned: on an input
    whose column labels carry no surrounding whitespace, the table
    returned has no column 'Unique number', and cleaning it again stops in
    [drop_features] with a KeyError for that label. *)
Theorem clean_again_raises df out :
  Forall (fun c => PyStr.strip c = c) (columns df) →
  clean df = Ok out →
  clean out = Raise (KeyError "Unique number").
Proof.
  intros Hstrip Hrun. pose proof (clean_columns _ _ Hrun) as Hcols.
  assert (Hout : "Unique number" ∉ columns out).
  { intros Hk. apply Hcols in Hk as (Hk & _).
    destruct Hk as [Hk|[Hk|[Hk _]]]; [revert Hk; evaluate| |done].
    unfold stripped_labels in Hk.
    apply list_elem_of_fmap in Hk as (c & Hc & Hin).
    apply list_elem_of_filter in Hin as [_ Hin].
    apply list_elem_of_filter in Hin as [Hnot Hin].
    rewrite Forall_forall in Hstrip. rewrite (Hstrip c Hin) in Hc.
    subst c. apply Hnot. left. }
  unfold clean, drop_features, drop_columns, first_missing.
  rewrite filter_cons, decide_True by done. done.
Qed.

End Columns.

Lemma clean_output_columns_witness :
  ∃ out, clean three_policies = Ok out
         ∧ Forall (fun l => l ∈ columns out)
             [ "Age"; "Driving_experience"; "Vehicle_type"; "Car_age";
               "Insurance_months" ].
Proof.
  eexists. split; [vm_compute; reflexivity|].
  apply (clean_output_columns three_policies). vm_compute. reflexivity.
Defined.

Lemma clean_required_columns_witness :
  ∃ out, clean three_policies = Ok out
         ∧ Forall (fun l => l ∈ columns three_policies)
             (dropped_features ++ ["Age"; "Driving_experience"]).
Proof.
  eexists. split; [vm_compute; reflexivity|].
  eapply (clean_required_columns three_policies). vm_compute. reflexivity.
Defined.

Lemma clean_again_raises_witness :
  ∃ out, clean three_policies = Ok out
         ∧ clean out = Raise (KeyError "Unique number").
Proof.
  eexists. split; [vm_compute; reflexivity|].
  apply (clean_again_raises three_policies).
  - evaluate.
  - vm_compute. reflexivity.
Defined.

Lemma clean_vehicle_outcome_witness :
  ∃ out, clean_vehicle_and_insurance_info padded_labels = Ok out
         ∧ columns out = ["Vehicle_type"; "Car_age"].
Proof.
  pose proof (clean_vehicle_outcome padded_labels ltac:(evaluate)) as Hout.
  destruct (clean_vehicle_and_insurance_info padded_labels) as [out|e] eqn:Hrun.
  - exists out. split; [done|]. destruct Hout as (_ & _ & ->).
    vm_compute. reflexivity.
  - exfalso. vm_compute in Hrun. discriminate Hrun.
Defined.

Lemma vehicle_types_filtered_then_mapped_witness :
  ∃ out, clean_vehicle_and_insurance_info truck_and_trailer = Ok out
         ∧ series "Vehicle_type" out = [Str "Грузовые"; NaN].
Proof.
  eexists. split; [vm_compute; reflexivity|].
  rewrite (vehicle_types_filtered_then_mapped truck_and_trailer).
  - vm_compute. reflexivity.
  - vm_compute. left.
  - vm_compute. reflexivity.
Defined.

(** ** fill_missing_privileges *)

(** [fill_missing_privileges] always completes, and leaves a table without
    a Privileges column as it is.  With the column, every row stays in
    place with its other values; a missing Privileges becomes
    'Не инвалид', any other value is kept, so no Privileges is missing
    afterwards.  Running the step again on its result changes nothing. *)
Theorem fill_missing_privileges_spec df :
  ∃ out,
    fill_missing_privileges df = Ok out
    ∧ columns out = columns df
    ∧ nrows out = nrows df
    ∧ ("Privileges" ∉ columns df → out = df)
    ∧ ("Privileges" ∈ columns df →
       ∀ i r, rows df !! i = Some r →
         ∃ r', rows out !! i = Some r'
               ∧ r' !! "Privileges"
                 = Some (if decide (r.["Privileges"] = NaN)
                         then Str "Не инвалид" else r.["Privileges"])
               ∧ r'.["Privileges"] ≠ NaN
               ∧ ∀ k, k ≠ "Privileges" → r' !! k = r !! k)
    ∧ fill_missing_privileges out = Ok out.
Proof.
  unfold fill_missing_privileges.
  destruct (decide ("Privileges" ∈ columns df)) as [Hin|Hout].
  2: { exists df. rewrite decide_False by done. by repeat split. }
  eexists. split; [reflexivity|].
  assert (Hcols : columns (assign "Privileges"
                    (fun r => fillna (Str "Не инвалид") r.["Privileges"]) df)
                  = columns df) by by apply add_label_elem.
  split; [done|]. split; [apply nrows_assign|]. split; [done|]. split.
  - intros _ i r Hi. cbn [rows assign]. rewrite list_lookup_fmap, Hi.
    eexists. split; [reflexivity|]. rewrite getitem_insert_eq, lookup_insert_eq.
    split; [|split].
    + by destruct (r.["Privileges"]).
    + by destruct (r.["Privileges"]).
    + intros k Hk. by rewrite lookup_insert_ne.
  - rewrite Hcols, decide_True by done. f_equal.
    unfold assign. cbn [columns rows].
    rewrite !(add_label_elem "Privileges" (columns df)) by done.
    f_equal. rewrite <- list_fmap_compose. apply list_fmap_ext.
    intros i r _. cbn. rewrite getitem_insert_eq, insert_insert_eq.
    by destruct (r.["Privileges"]).
Qed.

(** ** standardize_colors *)

Lemma standardize_color_category c : standardize_color c ∈ color_categories.
Proof.
  unfold standardize_color.
  destruct (color_mapping !! _) as [v|] eqn:Hv; cbn [default]; [|evaluate].
  apply elem_of_list_to_map_2 in Hv.
  repeat (apply elem_of_cons in Hv as [[= ? ?]|Hv]; [subst; evaluate|]).
  by apply elem_of_nil in Hv.
Qed.

Lemma standardize_color_fixed c :
  standardize_color (standardize_color c) = standardize_color c.
Proof.
  pose proof (standardize_color_category c) as Hc.
  unfold color_categories in Hc. cbn [fmap list_fmap] in Hc.
  repeat (apply elem_of_cons in Hc as [->|Hc]; [vm_compute; reflexivity|]).
  by apply elem_of_nil in Hc.
Qed.

(** After [standardize_colors] on a table with a Color column, every Color
    is one of ten values: the nine colour groups of the mapping or
    'Прочие'.  These ten are mapped to themselves, so running the step
    again on its result changes nothing. *)
Theorem standardize_colors_categories df out :
  standardize_colors df = Ok out →
  ("Color" ∈ columns df →
   ∀ r, r ∈ rows out → r.["Color"] ∈ color_categories)
  ∧ (∀ c, c ∈ color_categories → standardize_color c = c)
  ∧ standardize_colors out = Ok out.
Proof.
  unfold standardize_colors. intros Hrun. split; [|split].
  - intros Hin r Hr. rewrite decide_True in Hrun by done.
    injection Hrun as <-. cbn [rows assign] in Hr.
    apply list_elem_of_fmap in Hr as (r0 & -> & _).
    rewrite getitem_insert_eq. apply standardize_color_category.
  - intros c Hc. unfold color_categories in Hc. cbn [fmap list_fmap] in Hc.
    repeat (apply elem_of_cons in Hc as [->|Hc]; [vm_compute; reflexivity|]).
    by apply elem_of_nil in Hc.
  - destruct (decide ("Color" ∈ columns df)) as [Hin|Hout];
      injection Hrun as <-; [|by rewrite decide_False].
    cbn [columns assign]. rewrite add_label_elem by done.
    rewrite decide_True by done. f_equal.
    unfold assign. cbn [columns rows].
    rewrite !(add_label_elem "Color" (columns df)) by done.
    f_equal. rewrite <- list_fmap_compose. apply list_fmap_ext.
    intros i r _. cbn. rewrite getitem_insert_eq, insert_insert_eq.
    by rewrite standardize_color_fixed.
Qed.

Lemma standardize_colors_categories_witness :
  ∃ out, standardize_colors colors_example = Ok out
         ∧ standardize_colors out = Ok out.
Proof.
  eexists. split; [vm_compute; reflexivity|].
  apply (standardize_colors_categories colors_example).
  vm_compute. reflexivity.
Defined.

(** ** standardize_brands_and_models *)

Section BrandCounts.

Context `{PandasLib}.

Lemma collapse_series label old new n df :
  label ∈ columns df →
  series label (collapse label old new n df)
  = keep_top (top_values n (replace_value old new <$> series label df))
      <$> (replace_value old new <$> series label df).
Proof.
  intros Hl. unfold series at 1.
  destruct (collapse_rows label old new n df Hl) as [_ ->].
  unfold series. rewrite <- !list_fmap_compose.
  apply list_fmap_ext. intros i r _. cbn. by rewrite getitem_insert_eq.
Qed.

Lemma collapse_distinct label old new n df :
  label ∈ columns df →
  (length (remove_dups (series label (collapse label old new n df))) ≤ S n)%nat.
Proof.
  intros Hl. rewrite collapse_series by done.
  set (col := replace_value old new <$> series label df).
  destruct (top_values_most_frequent n col) as (_ & Hlen & _).
  assert (Hsub : remove_dups (keep_top (top_values n col) <$> col)
                 ⊆+ Str "Other" :: top_values n col).
  { apply NoDup_submseteq; [apply NoDup_remove_dups|].
    intros v Hv. rewrite elem_of_remove_dups in Hv.
    apply list_elem_of_fmap in Hv as (c & -> & _). unfold keep_top.
    case_decide; [by right|left]. }
  apply submseteq_length in Hsub. cbn [length] in Hsub. lia.
Qed.

(** With no more than [n] distinct values in the column, every one of them
    is among the [n] most frequent. *)
Lemma top_values_all n col v :
  (length (unique col) ≤ n)%nat → v ∈ col → v ≠ NaN → v ∈ top_values n col.
Proof.
  intros Hfew Hv Hnan.
  destruct (top_values_most_frequent n col) as (Hnd & _ & Hin & Hall & _).
  destruct Hall as [Hlen|Hall]; [|by apply Hall].
  assert (Hsub : top_values n col ⊆+ unique col).
  { apply NoDup_submseteq; [done|]. intros w Hw.
    apply elem_of_unique. destruct (Hin w Hw). done. }
  apply submseteq_length_Permutation in Hsub; [|lia].
  rewrite Hsub. by apply elem_of_unique.
Qed.

Lemma collapse_few label old new n df :
  label ∈ columns df →
  (length (unique (replace_value old new <$> series label df)) ≤ n)%nat →
  series label (collapse label old new n df)
  = (fun c => if decide (c = NaN) then Str "Other"
              else replace_value old new c) <$> series label df.
Proof.
  intros Hl Hfew. rewrite collapse_series by done.
  set (col := replace_value old new <$> series label df).
  unfold col at 2. rewrite <- list_fmap_compose.
  apply list_fmap_ext. intros i c Hi. cbn. unfold keep_top.
  assert (Hc : replace_value old new c ∈ col).
  { unfold col. apply list_elem_of_fmap_2. by eapply list_elem_of_lookup_2. }
  destruct (decide (c = NaN)) as [->|Hnan].
  - replace (replace_value old new NaN) with NaN
      by (unfold replace_value; by case_decide).
    rewrite decide_False; [done|]. intros Htop.
    destruct (top_values_most_frequent n col) as (_ & _ & Hin & _).
    destruct (Hin NaN Htop). done.
  - rewrite decide_True; [done|]. apply top_values_all; [done..|].
    unfold replace_value. by case_decide.
Qed.

(** After [standardize_brands_and_models] the Brand column holds at most 38
    distinct values (the 37 most frequent and 'Other') and the Model column
    at most 51; a missing value counts as none of the most frequent and
    becomes 'Other' as well. *)
Theorem brands_and_models_bounded df out :
  standardize_brands_and_models df = Ok out →
  ("Brand" ∈ columns df →
   (length (remove_dups (series "Brand" out)) ≤ 38)%nat
   ∧ ∀ r, r ∈ rows out → r.["Brand"] ≠ NaN)
  ∧ ("Model" ∈ columns df →
     (length (remove_dups (series "Model" out)) ≤ 51)%nat
     ∧ ∀ r, r ∈ rows out → r.["Model"] ≠ NaN).
Proof.
  unfold standardize_brands_and_models. intros [= <-].
  set (df1 := collapse "Brand" "Лада" "Lada" 37 df).
  assert (Hnan : ∀ label old new n d, label ∈ columns d →
            ∀ c, c ∈ series label (collapse label old new n d) → c ≠ NaN).
  { intros label old new n d Hl c Hc. rewrite collapse_series in Hc by done.
    apply list_elem_of_fmap in Hc as (c0 & -> & _). unfold keep_top.
    case_decide as Htop; [|done].
    destruct (top_values_most_frequent n
                (replace_value old new <$> series label d))
      as (_ & _ & Hin & _).
    by destruct (Hin _ Htop). }
  split.
  - intros Hb.
    rewrite (collapse_other "Model" "." "Unknown" 50 df1 "Brand") by done.
    split; [by apply collapse_distinct|].
    intros r Hr. apply (Hnan "Brand" "Лада" "Lada" 37%nat df Hb).
    fold df1. rewrite <- (collapse_other "Model" "." "Unknown" 50 df1 "Brand")
      by done.
    unfold series. by apply list_elem_of_fmap_2.
  - intros Hm.
    assert (Hm1 : "Model" ∈ columns df1).
    { unfold df1. by rewrite (proj2 (collapse_table _ _ _ _ _)). }
    split; [by apply collapse_distinct|].
    intros r Hr. apply (Hnan "Model" "." "Unknown" 50%nat df1 Hm1).
    unfold series. by apply list_elem_of_fmap_2.
Qed.

(** With at most 37 distinct brands after the renaming of 'Лада', no brand
    is replaced: the Brand column is renamed value by value, and only its
    missing values become 'Other'.  The same holds for a Model column with
    at most 50 distinct values after '.' is replaced by 'Unknown'. *)
Theorem few_brands_all_kept df out :
  standardize_brands_and_models df = Ok out →
  ("Brand" ∈ columns df →
   (length (unique (replace_value "Лада" "Lada" <$> series "Brand" df)) ≤ 37)%nat →
   series "Brand" out
   = (fun c => if decide (c = NaN) then Str "Other"
               else replace_value "Лада" "Lada" c) <$> series "Brand" df)
  ∧ ("Model" ∈ columns df →
     (length (unique (replace_value "." "Unknown" <$> series "Model" df)) ≤ 50)%nat →
     series "Model" out
     = (fun c => if decide (c = NaN) then Str "Other"
                 else replace_value "." "Unknown" c) <$> series "Model" df).
Proof.
  unfold standardize_brands_and_models. intros [= <-].
  set (df1 := collapse "Brand" "Лада" "Lada" 37 df).
  split.
  - intros Hb Hfew.
    rewrite (collapse_other "Model" "." "Unknown" 50 df1 "Brand") by done.
    by apply collapse_few.
  - intros Hm Hfew.
    assert (Hm1 : "Model" ∈ columns df1).
    { unfold df1. by rewrite (proj2 (collapse_table _ _ _ _ _)). }
    assert (Hs : series "Model" df1 = series "Model" df)
      by by apply collapse_other.
    rewrite <- Hs in Hfew |- *. by apply collapse_few.
Qed.

End BrandCounts.

Lemma brands_and_models_bounded_witness :
  ∃ out, standardize_brands_and_models brands_example = Ok out
         ∧ (length (remove_dups (series "Brand" out)) ≤ 38)%nat.
Proof.
  eexists. split; [vm_compute; reflexivity|].
  eapply (brands_and_models_bounded brands_example).
  - vm_compute. reflexivity.
  - vm_compute. left.
Defined.

Lemma few_brands_all_kept_witness :
  ∃ out, standardize_brands_and_models brands_example = Ok out
         ∧ series "Brand" out
           = [Str "Lada"; Str "Lada"; Str "Toyota"; Str "Other"].
Proof.
  eexists. split; [reflexivity|].
  rewrite (proj1 (few_brands_all_kept brands_example _ eq_refl)).
  - vm_compute. reflexivity.
  - vm_compute. left.
  - vm_compute. lia.
Defined.

(** ** map_city_to_region *)

Lemma split_prefix sep a b :
  occurrences sep a = 0%nat →
  ∃ parts, PyStr.split sep (a +:+ String sep b) = a :: parts.
Proof.
  induction a as [|c a IH]; simpl.
  - intros _. rewrite Ascii.eqb_refl. by eexists.
  - destruct (Ascii.eqb c sep); [done|]. intros Hocc.
    destruct (IH Hocc) as [parts Hparts]. rewrite Hparts. by eexists.
Qed.

Lemma split_whole sep a :
  occurrences sep a = 0%nat → PyStr.split sep a = [a].
Proof.
  induction a as [|c a IH]; cbn [occurrences PyStr.split]; [done|].
  destruct (Ascii.eqb c sep); [done|]. intros Hocc. by rewrite IH.
Qed.

(** The city name that is looked up is the text before the first comma:
    what follows a comma has no influence on the region.  A missing City is
    read as the text 'nan'. *)
Theorem city_cleaned_before_comma a b :
  occurrences "," a = 0%nat →
  city_cleaned (Str (a +:+ "," +:+ b)) = Str (PyStr.strip a)
  ∧ city_cleaned (Str a) = Str (PyStr.strip a)
  ∧ city_cleaned NaN = Str "nan".
Proof.
  intros Hocc. unfold city_cleaned. cbn [astype_str]. split; [|split].
  - destruct (split_prefix "," a b Hocc) as [parts Hparts].
    change ("," +:+ b) with (String "," b). by rewrite Hparts.
  - by rewrite split_whole.
  - vm_compute. reflexivity.
Qed.

Lemma city_cleaned_before_comma_witness :
  city_cleaned (Str ("Алматы" +:+ "," +:+ " мкр. Самал"))
  = Str (PyStr.strip "Алматы").
Proof.
  apply (city_cleaned_before_comma "Алматы" " мкр. Самал").
  vm_compute. reflexivity.
Defined.

(** [map_city_to_region] always completes, and leaves a table without a
    City column as it is.  With the column, every row stays in place with
    its other values, the columns City and City_cleaned are gone from the
    table and from every row, and Region holds the region that
    [region_mapping] gives for the cleaned city name, or 'Unknown' when the
    name is not a key of the table; Region is never missing. *)
Theorem map_city_to_region_spec df :
  ∃ out,
    map_city_to_region df = Ok out
    ∧ nrows out = nrows df
    ∧ ("City" ∉ columns df → out = df)
    ∧ ("City" ∈ columns df →
       ("City" ∉ columns out) ∧ ("City_cleaned" ∉ columns out)
       ∧ "Region" ∈ columns out
       ∧ ∀ i r, rows df !! i = Some r →
           ∃ r' name,
             rows out !! i = Some r'
             ∧ city_cleaned r.["City"] = Str name
             ∧ r' !! "Region"
               = Some (Str (default "Unknown" (region_mapping !! name)))
             ∧ r' !! "City" = None ∧ r' !! "City_cleaned" = None
             ∧ ∀ k, k ∉ ["City"; "City_cleaned"; "Region"] →
                    r' !! k = r !! k).
Proof.
  unfold map_city_to_region.
  destruct (decide ("City" ∈ columns df)) as [Hin|Hout].
  2: { exists df. by repeat split. }
  rewrite drop_columns_present.
  2: { cbn [columns assign]. repeat constructor;
         rewrite !elem_of_add_label; auto. }
  cbn [mbind result_bind]. eexists. split; [reflexivity|].
  split; [|split; [done|]].
  { unfold nrows. cbn [rows assign]. by rewrite !length_fmap. }
  intros _. cbn [columns rows assign].
  split; [|split; [|split]].
  - rewrite elem_of_add_label, list_elem_of_filter. intros [|[Hn _]]; [done|].
    apply Hn. right. left.
  - rewrite elem_of_add_label, list_elem_of_filter. intros [|[Hn _]]; [done|].
    apply Hn. left.
  - apply elem_of_add_label. by left.
  - intros i r Hi. rewrite !list_lookup_fmap, Hi.
    cbn [fmap option_fmap option_map].
    eexists _, (PyStr.strip
                  (default "" (head (PyStr.split "," (astype_str r.["City"]))))).
    split; [reflexivity|]. split; [done|]. cbn [foldr].
    rewrite lookup_insert_eq. split; [|split; [|split]].
    + rewrite !getitem_delete_ne by done. rewrite !getitem_insert_eq.
      unfold city_cleaned, map_dict.
      by destruct (region_mapping !! _).
    + rewrite lookup_insert_ne by done.
      rewrite lookup_delete_ne by done. apply lookup_delete_eq.
    + rewrite lookup_insert_ne by done. apply lookup_delete_eq.
    + intros k Hk. apply not_elem_of_cons in Hk as [Hk1 Hk].
      apply not_elem_of_cons in Hk as [Hk2 Hk].
      apply not_elem_of_cons in Hk as [Hk3 _].
      by rewrite lookup_insert_ne, !lookup_delete_ne, !lookup_insert_ne by done.
Qed.

(** ** The duration in closed form *)




(** ** Dates after the split *)

(** After [split_insurance_dates] every start_date and every end_date is
    either missing or a date of the calendar: a part of the period that
    names no such date (a thirteenth month, a 31st of February) is turned
    into a missing value, not into an error. *)
Theorem split_dates_are_calendar_dates df out :
  split_insurance_dates df = Ok out →
  ∀ r, r ∈ rows out →
    (r.["start_date"] = NaN
     ∨ ∃ d, r.["start_date"] = Date d ∧ is_date d = true)
    ∧ (r.["end_date"] = NaN
       ∨ ∃ d, r.["end_date"] = Date d ∧ is_date d = true).
Proof.
  unfold split_insurance_dates. intros Hrun.
  apply bind_Ok in Hrun as (_ & _ & Hrun).
  case_decide; [|done]. injection Hrun as <-.
  intros r Hr. cbn [rows assign] in Hr.
  apply list_elem_of_fmap in Hr as (r1 & -> & Hr1).
  apply list_elem_of_fmap in Hr1 as (r2 & -> & _).
  rewrite getitem_insert_eq, getitem_insert_ne, getitem_insert_eq by done.
  split; apply to_datetime_dmy_date.
Qed.

Lemma split_dates_are_calendar_dates_witness :
  ∃ out, split_insurance_dates (periods [Str "31.02.2024-31.03.2024"]) = Ok out
         ∧ ∀ r, r ∈ rows out →
             (r.["start_date"] = NaN
              ∨ ∃ d, r.["start_date"] = Date d ∧ is_date d = true)
             ∧ (r.["end_date"] = NaN
                ∨ ∃ d, r.["end_date"] = Date d ∧ is_date d = true).
Proof.
  eexists. split; [vm_compute; reflexivity|].
  apply (split_dates_are_calendar_dates (periods [Str "31.02.2024-31.03.2024"])).
  vm_compute. reflexivity.
Defined.
